(** * TravelBloom search pipeline: a shallow embedding of
      [travel_recommendation.js] and the properties of its specification.

    Strings.  A JavaScript string is a sequence of UTF-16 code units.  This
    development covers the strings whose code units are below 256 (the
    Latin-1 range): a code unit is an [ascii], a string is a [string].  On
    that range [toLowerCase], the classes [\w] and [\s] of the regular
    expression in [normalizeKeyword], and the white space removed by
    [trim] are modelled exactly.

    Data.  The dataset is the parsed JSON document; every field the code
    guards with [||] or [Array.isArray] is optional ([None] is an absent
    field, JavaScript's [undefined]).

    Effects.  The module-level variables [apiData] and [clockIntervalId],
    the browser's table of repeating timers and the four DOM elements the
    pipeline writes to are the fields of one [state] record, threaded
    explicitly.  [Date.prototype.toLocaleTimeString] throws a [RangeError]
    for a value that is not a time zone name, so the functions that format
    a time return an [outcome].  The elements the code looks up by id
    exist in the document.

    Events.  The handlers the page registers run one at a time; [step]
    runs one of them to completion and [reachable] collects the states the
    page can be in. *)

From Stdlib Require Import String Ascii List Bool Arith Lia.
Import ListNotations.

Local Open Scope list_scope.
Local Open Scope string_scope.

(** ** Code units *)

Module Char.

Local Open Scope nat_scope.

(** [WhiteSpace] and [LineTerminator] code points below 256: TAB, LF, VT,
    FF, CR, SP and NBSP.  [String.prototype.trim] and the class [\s]
    agree on them. *)
Definition isWhiteSpace (c : ascii) : bool :=
  let n := nat_of_ascii c in
  ((9 <=? n) && (n <=? 13)) || (n =? 32) || (n =? 160).

(** The class [\w] (no [u] or [i] flag): [A-Za-z0-9_]. *)
Definition isWord (c : ascii) : bool :=
  let n := nat_of_ascii c in
  ((48 <=? n) && (n <=? 57)) || ((65 <=? n) && (n <=? 90))
  || (n =? 95) || ((97 <=? n) && (n <=? 122)).

Definition isHyphen (c : ascii) : bool := (c =? "-")%char.

Definition isComma (c : ascii) : bool := (c =? ",")%char.

(** The class [[^\w\s-]]: what [normalizeKeyword] deletes. *)
Definition isPunctuation (c : ascii) : bool :=
  negb (isWord c || isWhiteSpace c || isHyphen c).

(** Lower-case mapping of one code unit below 256: [A-Z] and the
    Latin-1 capitals U+00C0..U+00DE (the multiplication sign U+00D7
    apart) move up by 32, everything else is unchanged. *)
Definition toLower (c : ascii) : ascii :=
  let n := nat_of_ascii c in
  if ((65 <=? n) && (n <=? 90))
     || ((192 <=? n) && (n <=? 222) && negb (n =? 215))
  then ascii_of_nat (n + 32)
  else c.

End Char.

(** ** String primitives *)

Module Str.

Definition dquote : string := String (ascii_of_nat 34) EmptyString.
Definition newline : string := String (ascii_of_nat 10) EmptyString.

Definition isEmpty (s : string) : bool :=
  match s with EmptyString => true | String _ _ => false end.

(** [s.toLowerCase()] *)
Fixpoint toLowerCase (s : string) : string :=
  match s with
  | EmptyString => EmptyString
  | String c s' => String (Char.toLower c) (toLowerCase s')
  end.

(** [s.replace(/[^\w\s-]/g, '')] *)
Fixpoint removePunctuation (s : string) : string :=
  match s with
  | EmptyString => EmptyString
  | String c s' =>
      if Char.isPunctuation c then removePunctuation s'
      else String c (removePunctuation s')
  end.

Fixpoint trimStart (s : string) : string :=
  match s with
  | EmptyString => EmptyString
  | String c s' => if Char.isWhiteSpace c then trimStart s' else s
  end.

Fixpoint trimEnd (s : string) : string :=
  match s with
  | EmptyString => EmptyString
  | String c s' =>
      match trimEnd s' with
      | EmptyString =>
          if Char.isWhiteSpace c then EmptyString else String c EmptyString
      | r => String c r
      end
  end.

(** [s.trim()] *)
Definition trim (s : string) : string := trimEnd (trimStart s).

(** [s.includes(k)]: [k] occurs in [s] at some position. *)
Fixpoint includes (s k : string) : bool :=
  prefix k s
  || match s with
     | EmptyString => false
     | String _ s' => includes s' k
     end.

(** [s.split(',')]: the segments between commas, never an empty list. *)
Fixpoint split (s : string) : list string :=
  match s with
  | EmptyString => [EmptyString]
  | String c s' =>
      if Char.isComma c then EmptyString :: split s'
      else match split s' with
           | [] => [String c EmptyString]
           | p :: ps => String c p :: ps
           end
  end.

(** [lines.join('\n')] *)
Fixpoint join (sep : string) (l : list string) : string :=
  match l with
  | [] => EmptyString
  | [x] => x
  | x :: l' => x ++ sep ++ join sep l'
  end.

(** Every code unit of [s] satisfies [p]. *)
Fixpoint every (p : ascii -> bool) (s : string) : bool :=
  match s with
  | EmptyString => true
  | String c s' => p c && every p s'
  end.

(** [s] is empty or consists of white space only. *)
Definition blank (s : string) : bool := every Char.isWhiteSpace s.

Fixpoint hasComma (s : string) : bool :=
  match s with
  | EmptyString => false
  | String c s' => Char.isComma c || hasComma s'
  end.

(** What follows the last comma of [s]; all of [s] when it has none. *)
Fixpoint lastSegment (s : string) : string :=
  match s with
  | EmptyString => EmptyString
  | String c s' => if hasComma s then lastSegment s' else s
  end.

End Str.

(** ** JavaScript value idioms *)

(** [x || d] for an optional string: [undefined] and [''] are falsy. *)
Definition orString (x : option string) (d : string) : string :=
  match x with
  | Some (String c s) => String c s
  | _ => d
  end.

(** [x || []] for an optional array: an array, even empty, is truthy. *)
Definition orList {A : Type} (x : option (list A)) : list A :=
  match x with
  | Some l => l
  | None => []
  end.

(** [`${x}`] for an optional string. *)
Definition display (x : option string) : string :=
  match x with
  | Some s => s
  | None => "undefined"
  end.

(** [!x] for an optional string. *)
Definition falsy (x : option string) : bool :=
  match x with
  | Some (String _ _) => false
  | _ => true
  end.

(** ** Query normalisation (lines 299-308) *)

Definition normalizeKeyword (text : string) : string :=
  let t := Str.toLowerCase text in
  let t := Str.trim (Str.removePunctuation t) in
  if t =? "beaches" then "beach"
  else if t =? "temples" then "temple"
  else if t =? "countries" then "country"
  else t.

(** ** City to country inference (lines 538-543) *)

Definition inferCountryFromCityName (cityName : option string) : option string :=
  let text := Str.trim (orString cityName EmptyString) in
  let parts := Str.split text in
  if (length parts <? 2)%nat then None
  else Some (Str.trim (last parts EmptyString)).

(** ** Data model: the parsed JSON document *)

Module Place.
Record t : Type := make {
  name : option string;
  description : option string;
  imageUrl : option string }.
End Place.

Module Country.
Record t : Type := make {
  name : option string;
  cities : option (list Place.t) }.
End Country.

Record Dataset : Type := mkDataset {
  beaches : option (list Place.t);
  temples : option (list Place.t);
  countries : option (list Country.t) }.

(** ** Flattening (lines 313-316) *)

Definition flattenAllCities (cs : list Country.t) : list Place.t :=
  flat_map (fun c => orList (Country.cities c)) cs.

(** ** Time zone lookup (lines 443-462) *)

(** The value of [map[key]] for the local [map] of the source, here
    [zoneMap].  It is an object literal, so a key it does
    not own is looked up on [Object.prototype]: the result is then one of
    the prototype's members, an object or a function. *)
Inductive tzValue : Type :=
| Zone (id : string)
| Inherited (key : string).

Definition zoneMap : list (string * string) :=
  [ ("australia", "Australia/Sydney");
    ("japan", "Asia/Tokyo");
    ("brazil", "America/Sao_Paulo") ].

Definition objectPrototype : list string :=
  [ "constructor"; "__defineGetter__"; "__defineSetter__"; "hasOwnProperty";
    "__lookupGetter__"; "__lookupSetter__"; "isPrototypeOf";
    "propertyIsEnumerable"; "toString"; "valueOf"; "__proto__";
    "toLocaleString" ].

Fixpoint ownProperty (o : list (string * string)) (key : string) : option string :=
  match o with
  | [] => None
  | (k, v) :: o' => if k =? key then Some v else ownProperty o' key
  end.

(** [o[key]] *)
Definition getProperty (o : list (string * string)) (key : string) : option tzValue :=
  match ownProperty o key with
  | Some v => Some (Zone v)
  | None =>
      if existsb (String.eqb key) objectPrototype then Some (Inherited key)
      else None
  end.

Definition getTimeZoneForCountry (countryName : option string) : option tzValue :=
  let key := Str.trim (Str.toLowerCase (orString countryName EmptyString)) in
  getProperty zoneMap key.

(** [Array.from(new Set(l))]: first occurrences, in order. *)
Fixpoint unique (l : list string) : list string :=
  match l with
  | [] => []
  | x :: l' => x :: filter (fun y => negb (y =? x)) (unique l')
  end.

Definition getTimeZonesForCountries (countryNames : list (option string))
  : list (string * tzValue) :=
  let names :=
    unique (filter (fun n => negb (Str.isEmpty n))
              (map (fun n => Str.trim (orString n EmptyString)) countryNames)) in
  flat_map (fun name =>
              match getTimeZoneForCountry (Some name) with
              | Some tz => [(name, tz)]
              | None => []
              end) names.

(** ** Application state, browser timers and the DOM *)

Record card : Type := mkCard {
  img_alt : string;
  img_src : string;
  badge : option string;
  title : string;
  body : string }.

Inductive metaText : Type :=
| MetaEmpty
| MetaFound (catText : string) (totalFound : nat).

(** The element [resultsHeader] with its title and meta line. *)
Record header : Type := mkHeader {
  headerShown : bool;
  headerTitle : string;
  headerMeta : metaText }.

(** What a repeating task runs every second. *)
Inductive callback : Type :=
| UpdateSingle (countryName : option string) (timeZone : tzValue)
| UpdateMulti (tzList : list (string * tzValue)).

Record state : Type := mkState {
  apiData : option Dataset;
  clockIntervalId : option nat;
  intervals : list (nat * callback);
  nextHandle : nat;
  fetching : bool;
  searchInput : string;
  results : list card;
  emptyState : option string;
  resultsHeader : header;
  timeBox : option string }.

Definition set_apiData (v : option Dataset) (st : state) : state :=
  mkState v (clockIntervalId st) (intervals st) (nextHandle st) (fetching st)
    (searchInput st) (results st) (emptyState st) (resultsHeader st) (timeBox st).

Definition set_clockIntervalId (v : option nat) (st : state) : state :=
  mkState (apiData st) v (intervals st) (nextHandle st) (fetching st)
    (searchInput st) (results st) (emptyState st) (resultsHeader st) (timeBox st).

Definition set_intervals (v : list (nat * callback)) (st : state) : state :=
  mkState (apiData st) (clockIntervalId st) v (nextHandle st) (fetching st)
    (searchInput st) (results st) (emptyState st) (resultsHeader st) (timeBox st).

Definition set_nextHandle (v : nat) (st : state) : state :=
  mkState (apiData st) (clockIntervalId st) (intervals st) v (fetching st)
    (searchInput st) (results st) (emptyState st) (resultsHeader st) (timeBox st).

Definition set_fetching (v : bool) (st : state) : state :=
  mkState (apiData st) (clockIntervalId st) (intervals st) (nextHandle st) v
    (searchInput st) (results st) (emptyState st) (resultsHeader st) (timeBox st).

Definition set_searchInput (v : string) (st : state) : state :=
  mkState (apiData st) (clockIntervalId st) (intervals st) (nextHandle st)
    (fetching st) v (results st) (emptyState st) (resultsHeader st) (timeBox st).

Definition set_results (v : list card) (st : state) : state :=
  mkState (apiData st) (clockIntervalId st) (intervals st) (nextHandle st)
    (fetching st) (searchInput st) v (emptyState st) (resultsHeader st) (timeBox st).

Definition set_emptyState (v : option string) (st : state) : state :=
  mkState (apiData st) (clockIntervalId st) (intervals st) (nextHandle st)
    (fetching st) (searchInput st) (results st) v (resultsHeader st) (timeBox st).

Definition set_resultsHeader (v : header) (st : state) : state :=
  mkState (apiData st) (clockIntervalId st) (intervals st) (nextHandle st)
    (fetching st) (searchInput st) (results st) (emptyState st) v (timeBox st).

Definition set_timeBox (v : option string) (st : state) : state :=
  mkState (apiData st) (clockIntervalId st) (intervals st) (nextHandle st)
    (fetching st) (searchInput st) (results st) (emptyState st) (resultsHeader st) v.

(** A call either returns or throws, and leaves a state behind in both cases. *)
Inductive exn : Type := RangeError.

Inductive outcome : Type :=
| Returned (st : state)
| Thrown (e : exn) (st : state).

Definition stateOf (o : outcome) : state :=
  match o with
  | Returned st => st
  | Thrown _ st => st
  end.

Definition andThen (o : outcome) (k : state -> outcome) : outcome :=
  match o with
  | Returned st => k st
  | Thrown e st => Thrown e st
  end.

Notation "o >>= k" := (andThen o k) (at level 50, left associativity).

(** ** Browser timers *)

Definition setInterval (cb : callback) (st : state) : nat * state :=
  let id := nextHandle st in
  (id, set_nextHandle (S id) (set_intervals (intervals st ++ [(id, cb)])%list st)).

Definition clearInterval (id : nat) (st : state) : state :=
  set_intervals (filter (fun e => negb (fst e =? id)%nat) (intervals st)) st.

(** The wall clock: [now z] is the current time formatted for the zone
    named [z], and [None] when [z] names no zone. *)
Definition clock : Type := string -> option string.

(** [new Date().toLocaleTimeString('en-US', {timeZone, ...})]: [None] is
    the [RangeError] for an invalid time zone. *)
Definition toLocaleTimeString (now : clock) (timeZone : tzValue) : option string :=
  match timeZone with
  | Zone z => now z
  | Inherited _ => None
  end.

(** ** Messages *)

Definition msgEmptyQuery : string :=
  "Type a keyword like " ++ Str.dquote ++ "beach" ++ Str.dquote ++ ", "
  ++ Str.dquote ++ "temple" ++ Str.dquote ++ ", "
  ++ Str.dquote ++ "country" ++ Str.dquote ++ ", or a country/city name.".

Definition msgLoading : string :=
  "Data is still loading. Try again in a moment.".

Definition msgNoMatch : string :=
  "No matches found. Try " ++ Str.dquote ++ "beach" ++ Str.dquote ++ ", "
  ++ Str.dquote ++ "temple" ++ Str.dquote ++ ", "
  ++ Str.dquote ++ "country" ++ Str.dquote ++ ", or a country/city name.".

Definition msgNoRecommendations : string :=
  "No recommendations found for that search.".

Definition msgLoadFailed : string :=
  "Unable to load recommendation data. Check your JSON file path (and use Live Server).".

(** ** DOM writers (lines 409-438, 517-529) *)

Definition renderEmpty (message : string) (st : state) : state :=
  let st := set_results [] st in
  set_emptyState (Some message) st.

Definition setResultsHeader (queryRaw : option string) (totalFound : nat)
    (categoryLabel : option string) (st : state) : state :=
  if falsy queryRaw then
    set_resultsHeader (mkHeader false "Results" MetaEmpty) st
  else
    let catText :=
      if falsy categoryLabel then "Category: (no match)"
      else "Category: " ++ display categoryLabel in
    set_resultsHeader
      (mkHeader true
         ("Showing results for: " ++ Str.dquote ++ display queryRaw ++ Str.dquote)
         (MetaFound catText totalFound)) st.

Definition setTimeBox (message : option string) (st : state) : state :=
  if falsy message then set_timeBox None st
  else set_timeBox message st.

(** ** The clock (lines 464-536) *)

Definition stopClock (st : state) : state :=
  match clockIntervalId st with
  | Some (S n) => set_clockIntervalId None (clearInterval (S n) st)
  | _ => st
  end.

Definition updateSingleClock (now : clock) (countryName : option string)
    (timeZone : tzValue) (st : state) : outcome :=
  match toLocaleTimeString now timeZone with
  | None => Thrown RangeError st
  | Some timeStr =>
      Returned (setTimeBox
                  (Some ("Current time in " ++ display countryName ++ ": " ++ timeStr)) st)
  end.

Definition startSingleClock (now : clock) (countryName : option string)
    (timeZone : option tzValue) (st : state) : outcome :=
  let st := stopClock st in
  match timeZone with
  | None =>
      Returned (setTimeBox
                  (Some ("Current time: (time zone not configured for "
                         ++ display countryName ++ ")")) st)
  | Some tz =>
      updateSingleClock now countryName tz st >>= fun st =>
      let (id, st) := setInterval (UpdateSingle countryName tz) st in
      Returned (set_clockIntervalId (Some id) st)
  end.

(** [tzList.map(...)]: the lines in order; the first zone that cannot be
    formatted throws. *)
Fixpoint clockLines (now : clock) (tzList : list (string * tzValue))
  : option (list string) :=
  match tzList with
  | [] => Some []
  | (label, timeZone) :: rest =>
      match toLocaleTimeString now timeZone with
      | None => None
      | Some t =>
          match clockLines now rest with
          | None => None
          | Some lines => Some ((label ++ ": " ++ t) :: lines)
          end
      end
  end.

Definition updateMultiClock (now : clock) (tzList : list (string * tzValue))
    (st : state) : outcome :=
  match clockLines now tzList with
  | None => Thrown RangeError st
  | Some lines =>
      Returned (setTimeBox
                  (Some ("Current times:" ++ Str.newline ++ Str.join Str.newline lines)) st)
  end.

Definition startMultiClock (now : clock) (tzList : list (string * tzValue))
    (st : state) : outcome :=
  let st := stopClock st in
  match tzList with
  | [] => Returned (setTimeBox None st)
  | _ :: _ =>
      updateMultiClock now tzList st >>= fun st =>
      let (id, st) := setInterval (UpdateMulti tzList) st in
      Returned (set_clockIntervalId (Some id) st)
  end.

(** ** Rendering (lines 322-384) *)

Definition makeCard (badgeLabel : option string) (item : Place.t) : card :=
  let name := orString (Place.name item) "Unknown Place" in
  let description := orString (Place.description item) "No description available." in
  let imageUrl := orString (Place.imageUrl item) "images/placeholder.jpg" in
  mkCard name imageUrl badgeLabel name description.

Definition appendChild (c : card) (st : state) : state :=
  set_results (results st ++ [c])%list st.

Definition renderRecommendations (items : list Place.t) (badgeLabel : option string)
    (st : state) : state :=
  let st := set_results [] st in
  let st := set_emptyState None st in
  if (length items =? 0)%nat then renderEmpty msgNoRecommendations st
  else
    let maxToShow := Nat.min (length items) 6 in
    let toShow := firstn (Nat.max 2 maxToShow) items in
    fold_left (fun st item => appendChild (makeCard badgeLabel item) st) toShow st.

(** ** Reset (lines 392-404) *)

Definition clearResults (st : state) : state :=
  let st := set_searchInput EmptyString st in
  let st := set_results [] st in
  let st := set_emptyState None st in
  let st := setResultsHeader None 0 None st in
  let st := stopClock st in
  setTimeBox None st.

(** ** Search (lines 180-291) *)

Definition handleSearch (now : clock) (st : state) : outcome :=
  let raw := Str.trim (orString (Some (searchInput st)) EmptyString) in
  if Str.isEmpty raw then
    let st := stopClock st in
    let st := setTimeBox None st in
    let st := setResultsHeader None 0 None st in
    Returned (renderEmpty msgEmptyQuery st)
  else
  match apiData st with
  | None =>
    let st := stopClock st in
    let st := setTimeBox None st in
    let st := setResultsHeader None 0 None st in
    Returned (renderEmpty msgLoading st)
  | Some data =>
  let keyword := normalizeKeyword raw in
  if keyword =? "beach" then
    let st := stopClock st in
    let st := setTimeBox None st in
    let list := orList (beaches data) in
    let st := setResultsHeader (Some raw) (length list) (Some "Beaches") st in
    Returned (renderRecommendations list (Some "Beaches") st)
  else if keyword =? "temple" then
    let st := stopClock st in
    let st := setTimeBox None st in
    let list := orList (temples data) in
    let st := setResultsHeader (Some raw) (length list) (Some "Temples") st in
    Returned (renderRecommendations list (Some "Temples") st)
  else if keyword =? "country" then
    let allCities := flattenAllCities (orList (countries data)) in
    let st := setResultsHeader (Some raw) (length allCities) (Some "Countries (Cities)") st in
    let st := renderRecommendations allCities (Some "Countries") st in
    let tzList := getTimeZonesForCountries (map Country.name (orList (countries data))) in
    startMultiClock now tzList st
  else
  match find (fun c => Str.toLowerCase (orString (Country.name c) EmptyString) =? keyword)
             (orList (countries data)) with
  | Some exactCountry =>
    let cities := orList (Country.cities exactCountry) in
    let st := setResultsHeader (Some raw) (length cities)
                (Some (display (Country.name exactCountry) ++ " (Cities)")) st in
    let st := renderRecommendations cities (Country.name exactCountry) st in
    let tz := getTimeZoneForCountry (Country.name exactCountry) in
    startSingleClock now (Country.name exactCountry) tz st
  | None =>
  match find (fun c => Str.includes (Str.toLowerCase (orString (Country.name c) EmptyString)) keyword)
             (orList (countries data)) with
  | Some partialCountry =>
    let cities := orList (Country.cities partialCountry) in
    let st := setResultsHeader (Some raw) (length cities)
                (Some (display (Country.name partialCountry) ++ " (Cities)")) st in
    let st := renderRecommendations cities (Country.name partialCountry) st in
    let tz := getTimeZoneForCountry (Country.name partialCountry) in
    startSingleClock now (Country.name partialCountry) tz st
  | None =>
  let allCities := flattenAllCities (orList (countries data)) in
  let matchedCities :=
    filter (fun city => Str.includes (Str.toLowerCase (orString (Place.name city) EmptyString)) keyword)
           allCities in
  match matchedCities with
  | first :: _ =>
    let st := setResultsHeader (Some raw) (length matchedCities) (Some "City Results") st in
    let st := renderRecommendations matchedCities (Some "City") st in
    let inferredCountry := inferCountryFromCityName (Place.name first) in
    if negb (falsy inferredCountry) then
      let tz := getTimeZoneForCountry inferredCountry in
      startSingleClock now inferredCountry tz st
    else
      let st := stopClock st in
      Returned (setTimeBox None st)
  | [] =>
    let st := stopClock st in
    let st := setTimeBox None st in
    let st := setResultsHeader (Some raw) 0 None st in
    Returned (renderEmpty msgNoMatch st)
  end end end end.

(** ** Data fetch (lines 157-172) *)

(** [response] is what the awaited fetch produced: the parsed document, or
    [None] when the request or the parsing failed. *)
Definition fetchApiData (response : option Dataset) (st : state) : state :=
  match response with
  | Some data => set_apiData (Some data) st
  | None => renderEmpty msgLoadFailed st
  end.

(** ** Page navigation (lines 79-100): the part that touches the pipeline *)

Definition showPage (pageName : string) (st : state) : state :=
  if pageName =? "home" then st
  else if pageName =? "about" then clearResults st
  else clearResults st.

(** ** The event loop *)

Inductive event : Type :=
| Input (value : string)               (* the user edits the search box *)
| ClickSearch (now : clock)
| ClickReset
| ClickLink (pageName : string)
| FetchSettled (response : option Dataset)
| Tick (id : nat) (now : clock).       (* the repeating task [id] is due *)

Fixpoint lookupInterval (id : nat) (l : list (nat * callback)) : option callback :=
  match l with
  | [] => None
  | (i, cb) :: l' => if (i =? id)%nat then Some cb else lookupInterval id l'
  end.

Definition runCallback (now : clock) (cb : callback) (st : state) : outcome :=
  match cb with
  | UpdateSingle countryName timeZone => updateSingleClock now countryName timeZone st
  | UpdateMulti tzList => updateMultiClock now tzList st
  end.

(** One event handler run to completion.  An uncaught exception ends the
    handler and leaves the state as it was when thrown. *)
Definition step (st : state) (ev : event) : state :=
  match ev with
  | Input value => set_searchInput value st
  | ClickSearch now => stateOf (handleSearch now st)
  | ClickReset => clearResults st
  | ClickLink pageName => showPage pageName st
  | FetchSettled response =>
      if fetching st then fetchApiData response (set_fetching false st) else st
  | Tick id now =>
      match lookupInterval id (intervals st) with
      | Some cb => stateOf (runCallback now cb st)
      | None => st
      end
  end.

(** The state when [DOMContentLoaded] has run: nothing loaded, no clock,
    no repeating task, the fetch outstanding.  Timer handles are positive.
    The content of the page is whatever the document holds. *)
Definition initial (st : state) : Prop :=
  apiData st = None /\ clockIntervalId st = None /\ intervals st = []
  /\ 1 <= nextHandle st /\ fetching st = true.

Inductive reachable : state -> Prop :=
| reachable_initial : forall st, initial st -> reachable st
| reachable_step : forall st ev, reachable st -> reachable (step st ev).

Definition pageLoad : state :=
  mkState None None [] 1 true EmptyString [] None (mkHeader false "Results" MetaEmpty) None.

Definition run (st : state) (evs : list event) : state := fold_left step evs st.

(** ** The clock's share of the state *)

Definition timers (st : state) : option nat * list (nat * callback) * nat :=
  (clockIntervalId st, intervals st, nextHandle st).

(** The table of repeating tasks holds the task [clockIntervalId] names and
    nothing else; handles are positive and below the next one. *)
Definition clockInvariantOn (t : option nat * list (nat * callback) * nat) : Prop :=
  let '(current, table, next) := t in
  1 <= next
  /\ match current with
     | None => table = []
     | Some id => 1 <= id < next /\ exists cb, table = [(id, cb)]
     end.

Definition clockInvariant (st : state) : Prop := clockInvariantOn (timers st).

(** Every zone of the list can be formatted by the platform. *)
Definition formattable (now : clock) (tzList : list (string * tzValue)) : Prop :=
  forall label timeZone,
    In (label, timeZone) tzList -> toLocaleTimeString now timeZone <> None.

(** [reachableFrom st st']: some sequence of events leads from [st] to [st']. *)
Inductive reachableFrom (st : state) : state -> Prop :=
| reachableFrom_refl : reachableFrom st st
| reachableFrom_step : forall st' ev,
    reachableFrom st st' -> reachableFrom st (step st' ev).

(** The document's share of the state. *)
Definition loading (st : state) : option Dataset * bool := (apiData st, fetching st).

(** The document with every absent top-level field made an empty array. *)
Definition withDefaults (data : Dataset) : Dataset :=
  mkDataset (Some (orList (beaches data))) (Some (orList (temples data)))
    (Some (orList (countries data))).

Definition mapOutcome (f : state -> state) (o : outcome) : outcome :=
  match o with
  | Returned st => Returned (f st)
  | Thrown e st => Thrown e (f st)
  end.

(** What the results area shows. *)
Definition rendered (st : state) : list card * option string * header :=
  (results st, emptyState st, resultsHeader st).

(** ** A sample document and sample runs *)

Module Sample.

Definition kyoto : Place.t :=
  Place.make (Some "Kyoto, Japan") (Some "Temples and gardens.") (Some "kyoto.jpg").
Definition tokyo : Place.t := Place.make (Some "Tokyo, Japan") None None.
Definition rio : Place.t := Place.make (Some "Rio de Janeiro,") (Some "Carnival.") None.
Definition bondi : Place.t := Place.make (Some "Bondi Beach, Australia") None None.

Definition japan : Country.t := Country.make (Some "Japan") (Some [kyoto; tokyo]).
Definition brazil : Country.t := Country.make (Some "Brazil") (Some [rio]).
Definition japanAlps : Country.t := Country.make (Some "Japan Alps") None.

Definition data : Dataset :=
  mkDataset (Some [bondi]) None (Some [japanAlps; japan; brazil]).

(** A wall clock that knows every zone and always reads noon. *)
Definition noon : clock := fun _ => Some "12:00:00 PM".

Definition loaded : state := run pageLoad [FetchSettled (Some data)].

(** The document is loaded and a clock for Japan is running. *)
Definition japanShown : state :=
  run loaded [Input " Japan "; ClickSearch noon].

(** A document with no field at all. *)
Definition sparse : Dataset := mkDataset None None None.

(** A city whose display name ends in a comma. *)
Definition salvador : Place.t := Place.make (Some "Salvador, ") None None.

Definition coast : Dataset :=
  mkDataset None None (Some [Country.make (Some "Brazil") (Some [rio; salvador])]).

(** The coast document is loaded, a clock for Brazil is running and the
    user has typed a city name. *)
Definition salvadorTyped : state :=
  run pageLoad [FetchSettled (Some coast); Input "brazil"; ClickSearch noon;
                Input "Salvador"].

End Sample.

(** * The specification's wording *)

Module Spec.

(** Section 4.5: split on commas; with fewer than two segments there is
    no country, otherwise the trailing segment, trimmed, is the country. *)
Definition inferCountry (cityName : string) : option string :=
  let segments := Str.split cityName in
  if (length segments <? 2)%nat then None
  else Some (Str.trim (last segments EmptyString)).

(** Section 4.3 and 8: one item shows one card, two to six items show all
    of them, more than six show six. *)
Definition cardsShown (count : nat) : nat :=
  if (count =? 0)%nat then 0
  else if (count =? 1)%nat then 1
  else if (count <=? 6)%nat then count
  else 6.

End Spec.

(** * The match tiers of section 4.2 *)

(** The precedence chain as the specification lists it: seven tiers in a
    fixed order, each with its condition, its items and its header label.
    The badge is the second argument [handleSearch] gives to
    [renderRecommendations] in the branch of that tier. *)

Module Tier.

Inductive t : Type :=
| KeywordBeach
| KeywordTemple
| KeywordCountry
| ExactCountry
| SubstringCountry
| SubstringCity
| NoMatch.

(** The fixed precedence. *)
Definition order : list t :=
  [KeywordBeach; KeywordTemple; KeywordCountry; ExactCountry; SubstringCountry;
   SubstringCity; NoMatch].

Definition eqb (a b : t) : bool :=
  match a, b with
  | KeywordBeach, KeywordBeach | KeywordTemple, KeywordTemple
  | KeywordCountry, KeywordCountry | ExactCountry, ExactCountry
  | SubstringCountry, SubstringCountry | SubstringCity, SubstringCity
  | NoMatch, NoMatch => true
  | _, _ => false
  end.

(** The tiers of [l] that come before [tier]. *)
Fixpoint before (tier : t) (l : list t) : list t :=
  match l with
  | [] => []
  | x :: l' => if eqb x tier then [] else x :: before tier l'
  end.

Definition countryKey (c : Country.t) : string :=
  Str.toLowerCase (orString (Country.name c) EmptyString).

Definition cityKey (p : Place.t) : string :=
  Str.toLowerCase (orString (Place.name p) EmptyString).

(** The condition each tier tests on the normalised query. *)
Definition applies (data : Dataset) (query : string) (tier : t) : bool :=
  match tier with
  | KeywordBeach => query =? "beach"
  | KeywordTemple => query =? "temple"
  | KeywordCountry => query =? "country"
  | ExactCountry =>
      existsb (fun c => countryKey c =? query) (orList (countries data))
  | SubstringCountry =>
      existsb (fun c => Str.includes (countryKey c) query) (orList (countries data))
  | SubstringCity =>
      existsb (fun p => Str.includes (cityKey p) query)
        (flattenAllCities (orList (countries data)))
  | NoMatch => true
  end.

(** First match wins: a tier fires when its condition holds and the
    condition of no tier before it does. *)
Definition fires (data : Dataset) (query : string) (tier : t) : bool :=
  applies data query tier
  && forallb (fun e => negb (applies data query e)) (before tier order).

(** The tier the precedence selects. *)
Definition select (data : Dataset) (query : string) : t :=
  match find (applies data query) order with
  | Some tier => tier
  | None => NoMatch
  end.

(** What a tier hands to the results header and to the renderer. *)
Record result : Type := mkResult {
  items : list Place.t;
  label : option string;
  badge : option string }.

Definition countryResult (found : option Country.t) : result :=
  match found with
  | Some c =>
      mkResult (orList (Country.cities c))
        (Some (display (Country.name c) ++ " (Cities)")) (Country.name c)
  | None => mkResult [] None None
  end.

Definition resultOf (data : Dataset) (query : string) (tier : t) : result :=
  match tier with
  | KeywordBeach => mkResult (orList (beaches data)) (Some "Beaches") (Some "Beaches")
  | KeywordTemple => mkResult (orList (temples data)) (Some "Temples") (Some "Temples")
  | KeywordCountry =>
      mkResult (flattenAllCities (orList (countries data)))
        (Some "Countries (Cities)") (Some "Countries")
  | ExactCountry =>
      countryResult (find (fun c => countryKey c =? query) (orList (countries data)))
  | SubstringCountry =>
      countryResult
        (find (fun c => Str.includes (countryKey c) query) (orList (countries data)))
  | SubstringCity =>
      mkResult
        (filter (fun p => Str.includes (cityKey p) query)
           (flattenAllCities (orList (countries data))))
        (Some "City Results") (Some "City")
  | NoMatch => mkResult [] None None
  end.

(** The empty-state message that goes with a result. *)
Definition emptyMessage (tier : t) (r : result) : option string :=
  match tier with
  | NoMatch => Some msgNoMatch
  | _ => if (length (items r) =? 0)%nat then Some msgNoRecommendations else None
  end.

End Tier.

(** * Page sections and the navigation bar (lines 79-145) *)

(** A [classList]: the class tokens of an element. *)
Module ClassList.

Definition t : Type := list string.

Definition contains (l : t) (token : string) : bool :=
  existsb (String.eqb token) l.

Definition add (token : string) (l : t) : t :=
  if contains l token then l else (l ++ [token])%list.

Definition remove (token : string) (l : t) : t :=
  filter (fun x => negb (x =? token)) l.

End ClassList.

Module Page.

(** The class lists of the three sections, of the three links, of
    [.navbar-inner] and of [searchArea], and [searchArea.style.display]. *)
Record dom : Type := mkDom {
  homePage : ClassList.t;
  aboutPage : ClassList.t;
  contactPage : ClassList.t;
  linkHome : ClassList.t;
  linkAbout : ClassList.t;
  linkContact : ClassList.t;
  navbarInner : ClassList.t;
  searchArea : ClassList.t;
  searchAreaDisplay : string }.

Definition applyNavState (pageName : string) (d : dom) : dom :=
  let home := ClassList.remove "active" (linkHome d) in
  let about := ClassList.remove "active" (linkAbout d) in
  let contact := ClassList.remove "active" (linkContact d) in
  let inner :=
    ClassList.remove "center-layout" (ClassList.remove "home-layout" (navbarInner d)) in
  if pageName =? "home" then
    mkDom (homePage d) (aboutPage d) (contactPage d)
      (ClassList.add "active" home) about contact
      (ClassList.add "home-layout" inner)
      (ClassList.remove "hidden" (searchArea d)) "flex"
  else if pageName =? "about" then
    mkDom (homePage d) (aboutPage d) (contactPage d)
      home (ClassList.add "active" about) contact
      (ClassList.add "home-layout" inner)
      (ClassList.add "hidden" (searchArea d)) "flex"
  else
    mkDom (homePage d) (aboutPage d) (contactPage d)
      home about (ClassList.add "active" contact)
      (ClassList.add "home-layout" inner)
      (ClassList.add "hidden" (searchArea d)) "flex".

(** [showPage] on the whole page: the sections and the navigation bar, and
    the search state of [clearResults]. *)
Definition showPage (pageName : string) (d : dom) (st : state) : dom * state :=
  let home := ClassList.remove "active" (homePage d) in
  let about := ClassList.remove "active" (aboutPage d) in
  let contact := ClassList.remove "active" (contactPage d) in
  let rest h a c :=
    mkDom h a c (linkHome d) (linkAbout d) (linkContact d) (navbarInner d)
      (searchArea d) (searchAreaDisplay d) in
  if pageName =? "home" then
    (applyNavState pageName (rest (ClassList.add "active" home) about contact), st)
  else if pageName =? "about" then
    (applyNavState pageName (rest home (ClassList.add "active" about) contact),
     clearResults st)
  else
    (applyNavState pageName (rest home about (ClassList.add "active" contact)),
     clearResults st).

End Page.

(** * More sample runs *)

Module Scenario.

Definition lisbon : Place.t := Place.make (Some "Lisbon, Portugal") None (Some "lisbon.jpg").
Definition nameless : Place.t := Place.make None None None.

Definition portugal : Country.t := Country.make (Some "Portugal") (Some [lisbon]).
Definition noCities : Country.t := Country.make (Some " JAPAN ") None.

(** Japan twice, once padded and in capitals, Portugal without a zone. *)
Definition atlas : Dataset :=
  mkDataset None (Some [nameless])
    (Some [Sample.japan; portugal; noCities; Sample.brazil]).

Definition atlasLoaded : state := run pageLoad [FetchSettled (Some atlas)].

(** A wall clock that knows no zone at all. *)
Definition noZones : clock := fun _ => None.


End Scenario.

(** * Properties *)

(** ** Code units *)

Ltac each_char c := destruct c as [[] [] [] [] [] [] [] []]; vm_compute; try reflexivity; try discriminate; auto.

Lemma toLower_idempotent (c : ascii) : Char.toLower (Char.toLower c) = Char.toLower c.
Proof. each_char c. Qed.

Lemma toLower_whiteSpace (c : ascii) :
  Char.isWhiteSpace (Char.toLower c) = Char.isWhiteSpace c.
Proof. each_char c. Qed.

Lemma comma_not_whiteSpace (c : ascii) :
  Char.isComma c = true -> Char.isWhiteSpace c = false.
Proof. each_char c. Qed.

Lemma whiteSpace_not_punctuation (c : ascii) :
  Char.isWhiteSpace c = true -> Char.isPunctuation c = false.
Proof. each_char c. Qed.

(** ** Trimming *)

Lemma trimStart_head (s : string) :
  Str.trimStart s = EmptyString
  \/ exists c r, Str.trimStart s = String c r /\ Char.isWhiteSpace c = false.
Proof.
  induction s as [|c s IH]; simpl; [now left|].
  destruct (Char.isWhiteSpace c) eqn:E; [exact IH|].
  right; exists c, s; split; [reflexivity | exact E].
Qed.

Lemma trimStart_idempotent (s : string) :
  Str.trimStart (Str.trimStart s) = Str.trimStart s.
Proof.
  destruct (trimStart_head s) as [H | (c & r & H & E)]; rewrite H; simpl;
    [reflexivity | now rewrite E].
Qed.

Lemma trimEnd_cons (c : ascii) (s : string) :
  Str.trimEnd (String c s) =
    if Str.isEmpty (Str.trimEnd s)
    then (if Char.isWhiteSpace c then EmptyString else String c EmptyString)
    else String c (Str.trimEnd s).
Proof. simpl; destruct (Str.trimEnd s); reflexivity. Qed.

Lemma trimEnd_idempotent (s : string) :
  Str.trimEnd (Str.trimEnd s) = Str.trimEnd s.
Proof.
  induction s as [|c s IH]; [reflexivity|].
  rewrite trimEnd_cons.
  destruct (Str.trimEnd s) as [|d r] eqn:E; simpl Str.isEmpty; cbv iota.
  - destruct (Char.isWhiteSpace c) eqn:W; [reflexivity|].
    rewrite trimEnd_cons; simpl; now rewrite W.
  - rewrite trimEnd_cons, IH; reflexivity.
Qed.

Lemma trimStart_trimEnd (s : string) :
  Str.trimStart (Str.trimEnd s) = Str.trimEnd (Str.trimStart s).
Proof.
  induction s as [|c s IH]; [reflexivity|].
  assert (R : Str.trimStart (String c s)
              = if Char.isWhiteSpace c then Str.trimStart s else String c s)
    by reflexivity.
  rewrite R, trimEnd_cons; clear R.
  destruct (Char.isWhiteSpace c) eqn:W.
  - rewrite <- IH.
    destruct (Str.trimEnd s) as [|d r]; simpl Str.isEmpty; cbv iota;
      [reflexivity | simpl; now rewrite W].
  - rewrite trimEnd_cons.
    destruct (Str.isEmpty (Str.trimEnd s)); simpl; now rewrite W.
Qed.

Lemma trim_idempotent (s : string) : Str.trim (Str.trim s) = Str.trim s.
Proof.
  unfold Str.trim.
  now rewrite trimStart_trimEnd, trimStart_idempotent, trimEnd_idempotent.
Qed.

Lemma trim_trimEnd (s : string) : Str.trim (Str.trimEnd s) = Str.trim s.
Proof.
  unfold Str.trim. now rewrite trimStart_trimEnd, trimEnd_idempotent.
Qed.

Lemma trim_head (s : string) :
  Str.trim s = EmptyString
  \/ exists c r, Str.trim s = String c r /\ Char.isWhiteSpace c = false.
Proof.
  unfold Str.trim; rewrite <- trimStart_trimEnd; apply trimStart_head.
Qed.

(** ** [every] and the string operations *)


Lemma every_trimStart (p : ascii -> bool) (s : string) :
  Str.every p s = true -> Str.every p (Str.trimStart s) = true.
Proof.
  induction s as [|c s IH]; simpl; [reflexivity|].
  rewrite andb_true_iff; intros [H1 H2].
  destruct (Char.isWhiteSpace c); [auto | simpl; now rewrite H1, H2].
Qed.

Lemma every_trimEnd (p : ascii -> bool) (s : string) :
  Str.every p s = true -> Str.every p (Str.trimEnd s) = true.
Proof.
  induction s as [|c s IH]; [reflexivity|].
  intros H; simpl in H; apply andb_true_iff in H; destruct H as [H1 H2].
  rewrite trimEnd_cons. specialize (IH H2).
  destruct (Str.isEmpty (Str.trimEnd s)).
  - destruct (Char.isWhiteSpace c); simpl; [reflexivity | now rewrite H1].
  - simpl; now rewrite H1, IH.
Qed.

Lemma every_trim (p : ascii -> bool) (s : string) :
  Str.every p s = true -> Str.every p (Str.trim s) = true.
Proof. intros H; unfold Str.trim; now apply every_trimEnd, every_trimStart. Qed.

Lemma every_removePunctuation (p : ascii -> bool) (s : string) :
  Str.every p s = true -> Str.every p (Str.removePunctuation s) = true.
Proof.
  induction s as [|c s IH]; simpl; [reflexivity|].
  rewrite andb_true_iff; intros [H1 H2].
  destruct (Char.isPunctuation c); [auto | simpl; now rewrite H1, IH].
Qed.

Lemma removePunctuation_clean (s : string) :
  Str.every (fun c => negb (Char.isPunctuation c)) (Str.removePunctuation s) = true.
Proof.
  induction s as [|c s IH]; simpl; [reflexivity|].
  destruct (Char.isPunctuation c) eqn:E; [exact IH | simpl; now rewrite E, IH].
Qed.

Lemma toLowerCase_lower (s : string) :
  Str.every (fun c => (Char.toLower c =? c)%char) (Str.toLowerCase s) = true.
Proof.
  induction s as [|c s IH]; simpl; [reflexivity|].
  now rewrite toLower_idempotent, Ascii.eqb_refl, IH.
Qed.

Lemma toLowerCase_fixed (s : string) :
  Str.every (fun c => (Char.toLower c =? c)%char) s = true -> Str.toLowerCase s = s.
Proof.
  induction s as [|c s IH]; simpl; [reflexivity|].
  rewrite andb_true_iff, Ascii.eqb_eq; intros [H1 H2]; now rewrite H1, IH.
Qed.

Lemma removePunctuation_fixed (s : string) :
  Str.every (fun c => negb (Char.isPunctuation c)) s = true -> Str.removePunctuation s = s.
Proof.
  induction s as [|c s IH]; simpl; [reflexivity|].
  rewrite andb_true_iff, negb_true_iff; intros [H1 H2]; now rewrite H1, IH.
Qed.

(** ** Normalisation *)

(** The string [normalizeKeyword] tests against the three plurals. *)
Lemma canonical_fixed (s : string) :
  let t := Str.trim (Str.removePunctuation (Str.toLowerCase s)) in
  Str.toLowerCase t = t /\ Str.removePunctuation t = t /\ Str.trim t = t.
Proof.
  intros t; unfold t; repeat split.
  - apply toLowerCase_fixed, every_trim, every_removePunctuation, toLowerCase_lower.
  - apply removePunctuation_fixed, every_trim, removePunctuation_clean.
  - apply trim_idempotent.
Qed.

Lemma normalizeKeyword_cases (text : string) :
  let t := Str.trim (Str.removePunctuation (Str.toLowerCase text)) in
  (t = "beaches" /\ normalizeKeyword text = "beach")
  \/ (t = "temples" /\ normalizeKeyword text = "temple")
  \/ (t = "countries" /\ normalizeKeyword text = "country")
  \/ (t <> "beaches" /\ t <> "temples" /\ t <> "countries" /\ normalizeKeyword text = t).
Proof.
  intros t; unfold normalizeKeyword; fold t.
  destruct (t =? "beaches") eqn:E1; [apply String.eqb_eq in E1; auto|].
  destruct (t =? "temples") eqn:E2; [apply String.eqb_eq in E2; auto|].
  destruct (t =? "countries") eqn:E3; [apply String.eqb_eq in E3; auto 6|].
  apply String.eqb_neq in E1, E2, E3; auto 10.
Qed.

Lemma normalizeKeyword_fixed (text : string) :
  let k := normalizeKeyword text in
  Str.toLowerCase k = k /\ Str.removePunctuation k = k /\ Str.trim k = k
  /\ normalizeKeyword k = k.
Proof.
  intros k; unfold k.
  destruct (normalizeKeyword_cases text) as [[_ ->]|[[_ ->]|[[_ ->]|(N1 & N2 & N3 & ->)]]];
    try (repeat split; reflexivity).
  destruct (canonical_fixed text) as (L & P & T).
  repeat split; trivial.
  unfold normalizeKeyword; rewrite L, P, T.
  apply String.eqb_neq in N1, N2, N3; now rewrite N1, N2, N3.
Qed.

(** C9: query normalisation is idempotent: normalising an already
    normalised string returns it unchanged, for every input string. *)
Theorem normalizeKeyword_idempotent (s : string) :
  normalizeKeyword (normalizeKeyword s) = normalizeKeyword s.
Proof. apply (normalizeKeyword_fixed s). Qed.

(** ** Splitting on commas *)

Lemma orString_some (s : string) : orString (Some s) EmptyString = s.
Proof. destruct s; reflexivity. Qed.

Lemma whiteSpace_not_comma (c : ascii) :
  Char.isWhiteSpace c = true -> Char.isComma c = false.
Proof.
  intros W; destruct (Char.isComma c) eqn:E; [|reflexivity].
  apply comma_not_whiteSpace in E; congruence.
Qed.

Lemma split_noComma (s : string) : Str.hasComma s = false -> Str.split s = [s].
Proof.
  induction s as [|c s IH]; simpl; [reflexivity|].
  rewrite orb_false_iff; intros [Hc Hs]; now rewrite Hc, (IH Hs).
Qed.

Lemma split_comma (s : string) :
  Str.hasComma s = true -> exists p q qs, Str.split s = p :: q :: qs.
Proof.
  induction s as [|c s IH]; simpl; [discriminate|].
  destruct (Char.isComma c) eqn:Hc; simpl.
  - intros _. destruct (Str.hasComma s) eqn:Hs.
    + destruct (IH eq_refl) as (p & q & qs & ->); eauto.
    + rewrite (split_noComma s Hs); eauto.
  - intros Hs; destruct (IH Hs) as (p & q & qs & ->); eauto.
Qed.

Lemma split_length (s : string) :
  (length (Str.split s) <? 2)%nat = negb (Str.hasComma s).
Proof.
  destruct (Str.hasComma s) eqn:H.
  - destruct (split_comma s H) as (p & q & qs & ->); reflexivity.
  - now rewrite (split_noComma s H).
Qed.

Lemma lastSegment_noComma (s : string) :
  Str.hasComma s = false -> Str.lastSegment s = s.
Proof. destruct s as [|c s]; [reflexivity|]; intros H; simpl in *; now rewrite H. Qed.

Lemma split_last (s : string) : last (Str.split s) EmptyString = Str.lastSegment s.
Proof.
  induction s as [|c s IH]; [reflexivity|].
  destruct (Str.hasComma s) eqn:Hs.
  - destruct (split_comma s Hs) as (p & q & qs & E).
    simpl Str.lastSegment; simpl Str.split; rewrite Hs, orb_true_r, <- IH, E.
    destruct (Char.isComma c); reflexivity.
  - simpl Str.lastSegment; simpl Str.split.
    rewrite Hs, orb_false_r, (split_noComma s Hs).
    destruct (Char.isComma c); [|reflexivity].
    simpl; symmetry; now apply lastSegment_noComma.
Qed.

Lemma hasComma_trimStart (s : string) :
  Str.hasComma (Str.trimStart s) = Str.hasComma s.
Proof.
  induction s as [|c s IH]; simpl; [reflexivity|].
  destruct (Char.isWhiteSpace c) eqn:W; [|reflexivity].
  now rewrite (whiteSpace_not_comma c W), IH.
Qed.

Lemma hasComma_trimEnd (s : string) :
  Str.hasComma (Str.trimEnd s) = Str.hasComma s.
Proof.
  induction s as [|c s IH]; [reflexivity|].
  rewrite trimEnd_cons; simpl Str.hasComma at 2; rewrite <- IH.
  destruct (Str.trimEnd s) as [|d r]; simpl Str.isEmpty; cbv iota; [|reflexivity].
  destruct (Char.isWhiteSpace c) eqn:W; simpl;
    [now rewrite (whiteSpace_not_comma c W) | reflexivity].
Qed.

Lemma hasComma_trim (s : string) : Str.hasComma (Str.trim s) = Str.hasComma s.
Proof. unfold Str.trim; now rewrite hasComma_trimEnd, hasComma_trimStart. Qed.

Lemma lastSegment_trimStart (s : string) :
  Str.hasComma s = true -> Str.lastSegment (Str.trimStart s) = Str.lastSegment s.
Proof.
  induction s as [|c s IH]; [reflexivity|].
  intros H. simpl Str.trimStart.
  destruct (Char.isWhiteSpace c) eqn:W; [|reflexivity].
  simpl in H |- *. rewrite (whiteSpace_not_comma c W) in H |- *; simpl in H |- *.
  rewrite H; now apply IH.
Qed.

Lemma lastSegment_trimEnd (s : string) :
  Str.lastSegment (Str.trimEnd s) = Str.trimEnd (Str.lastSegment s).
Proof.
  induction s as [|c s IH]; [reflexivity|].
  assert (L : Str.lastSegment (String c s)
              = if Char.isComma c || Str.hasComma s then Str.lastSegment s else String c s)
    by reflexivity.
  rewrite L; clear L.
  pose proof (hasComma_trimEnd s) as HC.
  rewrite trimEnd_cons.
  destruct (Str.trimEnd s) as [|d r] eqn:E; simpl Str.isEmpty; cbv iota.
  - simpl in HC. rewrite <- HC, orb_false_r, (lastSegment_noComma s (eq_sym HC)).
    destruct (Char.isWhiteSpace c) eqn:W.
    + rewrite (whiteSpace_not_comma c W), trimEnd_cons, E; simpl; now rewrite W.
    + destruct (Char.isComma c) eqn:Hc.
      * rewrite E; simpl; now rewrite Hc.
      * rewrite trimEnd_cons, E; simpl; now rewrite W, Hc.
  - assert (L : Str.lastSegment (String c (String d r))
                = if Char.isComma c || Str.hasComma (String d r)
                  then Str.lastSegment (String d r) else String c (String d r))
      by reflexivity.
    rewrite L, HC, IH; clear L.
    destruct (Char.isComma c || Str.hasComma s); [reflexivity|].
    now rewrite trimEnd_cons, E.
Qed.

Lemma inferCountry_comma (s : string) :
  Str.hasComma s = true ->
  inferCountryFromCityName (Some s) = Some (Str.trim (Str.lastSegment s)).
Proof.
  intros H; unfold inferCountryFromCityName.
  rewrite orString_some, split_length, hasComma_trim, H, split_last; simpl.
  unfold Str.trim at 2.
  rewrite lastSegment_trimEnd, trim_trimEnd, lastSegment_trimStart; trivial.
Qed.

Lemma inferCountry_noComma (s : string) :
  Str.hasComma s = false -> inferCountryFromCityName (Some s) = None.
Proof.
  intros H; unfold inferCountryFromCityName.
  now rewrite orString_some, split_length, hasComma_trim, H.
Qed.

(** C7: city-to-country inference splits the display name on commas; with
    fewer than two segments it returns no country, otherwise the trailing
    segment trimmed.  "Kyoto, Japan" gives "Japan", "Unknown" gives no
    country, and so does a city without a name. *)
Theorem inferCountryFromCityName_spec :
  (forall cityName : string,
      inferCountryFromCityName (Some cityName) = Spec.inferCountry cityName)
  /\ inferCountryFromCityName (Some "Kyoto, Japan") = Some "Japan"
  /\ inferCountryFromCityName (Some "Unknown") = None
  /\ inferCountryFromCityName None = None.
Proof.
  repeat split; try reflexivity.
  intros s; unfold Spec.inferCountry; rewrite split_length, split_last.
  destruct (Str.hasComma s) eqn:H; simpl;
    [now apply inferCountry_comma | now apply inferCountry_noComma].
Qed.

(** ** The clock *)

Create HintDb clock.

Lemma clockInvariant_timers (st st' : state) :
  timers st' = timers st -> clockInvariant st -> clockInvariant st'.
Proof. unfold clockInvariant; now intros ->. Qed.

Lemma timers_renderEmpty m st : timers (renderEmpty m st) = timers st.
Proof. reflexivity. Qed.

Lemma timers_setResultsHeader q n c st : timers (setResultsHeader q n c st) = timers st.
Proof. unfold setResultsHeader; destruct (falsy q); reflexivity. Qed.

Lemma timers_setTimeBox m st : timers (setTimeBox m st) = timers st.
Proof. unfold setTimeBox; destruct (falsy m); reflexivity. Qed.

Lemma timers_appendCards (f : Place.t -> card) l st :
  timers (fold_left (fun st item => appendChild (f item) st) l st) = timers st.
Proof. revert st; induction l as [|x l IH]; intros st; simpl; [reflexivity | now rewrite IH]. Qed.

Lemma timers_renderRecommendations l b st :
  timers (renderRecommendations l b st) = timers st.
Proof.
  unfold renderRecommendations.
  destruct (length l =? 0)%nat; [reflexivity | now rewrite timers_appendCards].
Qed.

Lemma timers_updateSingleClock now n tz st :
  timers (stateOf (updateSingleClock now n tz st)) = timers st.
Proof.
  unfold updateSingleClock; destruct (toLocaleTimeString now tz); simpl;
    [apply timers_setTimeBox | reflexivity].
Qed.

Lemma timers_updateMultiClock now l st :
  timers (stateOf (updateMultiClock now l st)) = timers st.
Proof.
  unfold updateMultiClock; destruct (clockLines now l); simpl;
    [apply timers_setTimeBox | reflexivity].
Qed.

Ltac frame :=
  repeat (progress
            rewrite ?timers_renderEmpty, ?timers_setResultsHeader, ?timers_setTimeBox,
              ?timers_renderRecommendations, ?timers_updateSingleClock,
              ?timers_updateMultiClock).

Lemma timers_fields st a b c :
  timers st = (a, b, c) ->
  clockIntervalId st = a /\ intervals st = b /\ nextHandle st = c.
Proof. unfold timers; intros E; inversion E; auto. Qed.

(** After [stopClock] no repeating task is left. *)
Lemma stopClock_stopped (st : state) :
  clockInvariant st ->
  timers (stopClock st) = (None, [], nextHandle st).
Proof.
  unfold clockInvariant, clockInvariantOn, timers, stopClock.
  destruct (clockIntervalId st) as [[|n]|] eqn:E; intros (Hn & H).
  - destruct H as ((H & _) & _); inversion H.
  - destruct H as (_ & cb & Hcb); simpl; rewrite Hcb; simpl.
    now rewrite Nat.eqb_refl.
  - now rewrite E, H.
Qed.

Lemma clockInvariant_stopClock (st : state) :
  clockInvariant st -> clockInvariant (stopClock st).
Proof.
  intros H; unfold clockInvariant; rewrite (stopClock_stopped st H).
  destruct H as (H & _); simpl; auto.
Qed.

Lemma startSingleClock_timers now n tz st :
  clockInvariant st ->
  timers (stateOf (startSingleClock now n tz st)) =
    match tz with
    | None => (None, [], nextHandle st)
    | Some z =>
        match toLocaleTimeString now z with
        | None => (None, [], nextHandle st)
        | Some _ => (Some (nextHandle st), [(nextHandle st, UpdateSingle n z)],
                     S (nextHandle st))
        end
    end.
Proof.
  intros H; pose proof (stopClock_stopped st H) as S.
  unfold startSingleClock. destruct tz as [z|]; simpl.
  - unfold updateSingleClock.
    destruct (toLocaleTimeString now z); simpl; [|exact S].
    unfold timers in *; simpl.
    pose proof (timers_setTimeBox
                  (Some ("Current time in " ++ display n ++ ": " ++ s)) (stopClock st)) as T.
    unfold timers in T; rewrite S in T. inversion T as [[T1 T2 T3]].
    now rewrite T2, T3.
  - now rewrite timers_setTimeBox.
Qed.

Lemma startMultiClock_timers now l st :
  clockInvariant st ->
  timers (stateOf (startMultiClock now l st)) =
    match l with
    | [] => (None, [], nextHandle st)
    | _ :: _ =>
        match clockLines now l with
        | None => (None, [], nextHandle st)
        | Some _ => (Some (nextHandle st), [(nextHandle st, UpdateMulti l)],
                     S (nextHandle st))
        end
    end.
Proof.
  intros H; pose proof (stopClock_stopped st H) as S.
  unfold startMultiClock. destruct l as [|x l]; simpl andThen.
  - simpl; now rewrite timers_setTimeBox.
  - unfold updateMultiClock.
    destruct (clockLines now (x :: l)) as [lines|]; simpl; [|exact S].
    unfold timers in *; simpl.
    pose proof (timers_setTimeBox
                  (Some ("Current times:" ++ Str.newline ++ Str.join Str.newline lines))
                  (stopClock st)) as T.
    unfold timers in T; rewrite S in T. inversion T as [[T1 T2 T3]].
    now rewrite T2, T3.
Qed.

Lemma clockInvariant_startSingleClock now n tz st :
  clockInvariant st -> clockInvariant (stateOf (startSingleClock now n tz st)).
Proof.
  intros H; unfold clockInvariant; rewrite (startSingleClock_timers now n tz st H).
  destruct H as (H & _).
  destruct tz as [z|]; [destruct (toLocaleTimeString now z)|]; simpl; eauto with arith.
Qed.

Lemma clockInvariant_startMultiClock now l st :
  clockInvariant st -> clockInvariant (stateOf (startMultiClock now l st)).
Proof.
  intros H; unfold clockInvariant; rewrite (startMultiClock_timers now l st H).
  destruct H as (H & _).
  destruct l as [|x l]; [|destruct (clockLines now (x :: l))]; simpl; eauto with arith.
Qed.

Lemma clockInvariant_renderEmpty m st :
  clockInvariant st -> clockInvariant (renderEmpty m st).
Proof. apply clockInvariant_timers; now frame. Qed.

Lemma clockInvariant_setResultsHeader q n c st :
  clockInvariant st -> clockInvariant (setResultsHeader q n c st).
Proof. apply clockInvariant_timers; now frame. Qed.

Lemma clockInvariant_setTimeBox m st :
  clockInvariant st -> clockInvariant (setTimeBox m st).
Proof. apply clockInvariant_timers; now frame. Qed.

Lemma clockInvariant_renderRecommendations l b st :
  clockInvariant st -> clockInvariant (renderRecommendations l b st).
Proof. apply clockInvariant_timers; now frame. Qed.

#[export] Hint Resolve clockInvariant_renderEmpty clockInvariant_setResultsHeader
  clockInvariant_setTimeBox clockInvariant_renderRecommendations
  clockInvariant_stopClock clockInvariant_startSingleClock
  clockInvariant_startMultiClock : clock.

Lemma clockInvariant_clearResults st :
  clockInvariant st -> clockInvariant (clearResults st).
Proof.
  intros H; unfold clearResults.
  apply clockInvariant_setTimeBox, clockInvariant_stopClock,
    clockInvariant_setResultsHeader.
  revert H; now apply clockInvariant_timers.
Qed.

Lemma clockInvariant_handleSearch now st :
  clockInvariant st -> clockInvariant (stateOf (handleSearch now st)).
Proof.
  intros H; unfold handleSearch; cbv zeta.
  repeat match goal with
         | |- context [if ?b then _ else _] => destruct b
         | |- context [match ?x with _ => _ end] => destruct x
         end;
    simpl stateOf; auto 10 with clock.
Qed.

Lemma clockInvariant_step st ev :
  clockInvariant st -> clockInvariant (step st ev).
Proof.
  intros H; destruct ev as [value|now| |pageName|response|id now]; simpl.
  - revert H; now apply clockInvariant_timers.
  - now apply clockInvariant_handleSearch.
  - now apply clockInvariant_clearResults.
  - unfold showPage.
    destruct (pageName =? "home"); [assumption|].
    destruct (pageName =? "about"); now apply clockInvariant_clearResults.
  - destruct (fetching st); [|assumption].
    destruct response as [data|]; simpl;
      [|apply clockInvariant_renderEmpty]; revert H; now apply clockInvariant_timers.
  - destruct (lookupInterval id (intervals st)) as [[n tz|l]|]; [| |assumption];
      revert H; apply clockInvariant_timers; simpl; now frame.
Qed.

Lemma clockInvariant_initial st : initial st -> clockInvariant st.
Proof.
  intros (_ & Hc & Hi & Hn & _); unfold clockInvariant, timers.
  rewrite Hc, Hi; simpl; auto.
Qed.

Lemma clockInvariant_reachable st : reachable st -> clockInvariant st.
Proof.
  induction 1 as [st H|st ev _ IH];
    [now apply clockInvariant_initial | now apply clockInvariant_step].
Qed.

Lemma clockInvariant_atMostOne st :
  clockInvariant st -> length (intervals st) <= 1.
Proof.
  unfold clockInvariant, timers, clockInvariantOn.
  destruct (clockIntervalId st); intros (_ & H).
  - destruct H as (_ & cb & ->); auto.
  - rewrite H; auto.
Qed.

Lemma clockLines_formattable now l :
  formattable now l <-> clockLines now l <> None.
Proof.
  induction l as [|[label tz] l IH]; simpl.
  - split; [discriminate | intros _ ? ? []].
  - split.
    + intros F.
      assert (F1 : toLocaleTimeString now tz <> None) by (apply (F label); now left).
      assert (F2 : formattable now l) by (intros a b Hab; apply (F a); now right).
      apply IH in F2.
      destruct (toLocaleTimeString now tz); [|congruence].
      destruct (clockLines now l); congruence.
    + intros N a b [E|Hab].
      * inversion E; subst. destruct (toLocaleTimeString now b); congruence.
      * destruct (toLocaleTimeString now tz); [|congruence].
        assert (N' : clockLines now l <> None)
          by (destruct (clockLines now l); congruence).
        apply IH in N'. now apply (N' a).
Qed.

Lemma reachable_pageLoad : reachable pageLoad.
Proof. apply reachable_initial; repeat split; auto. Qed.

Lemma reachable_run st evs : reachable st -> reachable (run st evs).
Proof.
  revert st; induction evs as [|ev evs IH]; intros st H; simpl; [assumption|].
  apply IH; now apply reachable_step.
Qed.

(** C3: at every reachable state at most one repeating clock task is
    active.  Both clock-start operations cancel the tasks that were active
    and leave at most one; a start with a time zone the platform can
    format (for the multi-clock: a non-empty list of such zones) leaves
    exactly one, and every other start leaves none. *)
Theorem single_repeating_task :
  (forall st, reachable st -> length (intervals st) <= 1)
  /\ (forall st now countryName timeZone,
        reachable st ->
        let st' := stateOf (startSingleClock now countryName timeZone st) in
        (forall task, In task (intervals st) -> ~ In task (intervals st'))
        /\ length (intervals st') <= 1
        /\ (forall z, timeZone = Some z -> toLocaleTimeString now z <> None ->
            length (intervals st') = 1
            /\ exists id, clockIntervalId st' = Some id
                          /\ intervals st' = [(id, UpdateSingle countryName z)])
        /\ ((timeZone = None
             \/ exists z, timeZone = Some z /\ toLocaleTimeString now z = None) ->
            intervals st' = [] /\ clockIntervalId st' = None))
  /\ (forall st now tzList,
        reachable st ->
        let st' := stateOf (startMultiClock now tzList st) in
        (forall task, In task (intervals st) -> ~ In task (intervals st'))
        /\ length (intervals st') <= 1
        /\ (tzList <> [] -> formattable now tzList ->
            length (intervals st') = 1
            /\ exists id, clockIntervalId st' = Some id
                          /\ intervals st' = [(id, UpdateMulti tzList)])
        /\ ((tzList = [] \/ ~ formattable now tzList) ->
            intervals st' = [] /\ clockIntervalId st' = None)).
Proof.
  split; [intros st R; now apply clockInvariant_atMostOne, clockInvariant_reachable|].
  assert (fresh : forall st task, clockInvariant st -> In task (intervals st) ->
                                  fst task < nextHandle st).
  { intros st task I; unfold clockInvariant, timers, clockInvariantOn in I.
    destruct (clockIntervalId st); destruct I as (? & I).
    - destruct I as (? & cb & ->); intros [<-|[]]; simpl; lia.
    - rewrite I; intros []. }
  split.
  - intros st now n tz R; cbv zeta.
    pose proof (clockInvariant_reachable st R) as I.
    pose proof (startSingleClock_timers now n tz st I) as T.
    destruct tz as [z|]; [destruct (toLocaleTimeString now z) eqn:F|];
      apply timers_fields in T; destruct T as (T1 & T2 & T3); rewrite T1, T2;
      (split; [|split; [|split]]); simpl; auto.
    + intros task Hin [<-|[]]. apply (fresh st _ I) in Hin; simpl in Hin; lia.
    + intros z' E _; inversion E; subst; eauto.
    + intros [E|(z' & E & E')]; [discriminate|]. inversion E; subst; congruence.
    + intros z' E N; inversion E; subst; congruence.
    + discriminate.
  - intros st now l R; cbv zeta.
    pose proof (clockInvariant_reachable st R) as I.
    pose proof (startMultiClock_timers now l st I) as T.
    pose proof (clockLines_formattable now l) as F.
    destruct l as [|x l]; [|destruct (clockLines now (x :: l)) eqn:L];
      apply timers_fields in T; destruct T as (T1 & T2 & T3); rewrite T1, T2;
      (split; [|split; [|split]]); simpl; auto.
    + congruence.
    + intros task Hin [<-|[]]. apply (fresh st _ I) in Hin; simpl in Hin; lia.
    + eauto.
    + intros [E|N]; [discriminate|]. exfalso; apply N, F; discriminate.
    + intros _ N; apply F in N; congruence.
Qed.

Lemma single_repeating_task_witness :
  length (intervals Sample.japanShown) = 1
  /\ length (intervals (stateOf (startSingleClock Sample.noon (Some "Brazil")
                                   (Some (Zone "America/Sao_Paulo")) Sample.japanShown))) = 1
  /\ intervals (stateOf (startSingleClock Sample.noon (Some "Peru") None
                           Sample.japanShown)) = []
  /\ length (intervals (stateOf (startMultiClock Sample.noon
                                   [("Japan", Zone "Asia/Tokyo")] Sample.japanShown))) = 1
  /\ intervals (stateOf (startMultiClock Sample.noon [] Sample.japanShown)) = [].
Proof.
  destruct single_repeating_task as (A & B & C).
  assert (R : reachable Sample.japanShown)
    by (apply reachable_run, reachable_run, reachable_pageLoad).
  split; [reflexivity|]. split; [|split; [|split]].
  - destruct (B Sample.japanShown Sample.noon (Some "Brazil")
                (Some (Zone "America/Sao_Paulo")) R) as (_ & _ & H & _).
    apply (H _ eq_refl). discriminate.
  - destruct (B Sample.japanShown Sample.noon (Some "Peru") None R) as (_ & _ & _ & H).
    apply H; now left.
  - destruct (C Sample.japanShown Sample.noon [("Japan", Zone "Asia/Tokyo")] R)
      as (_ & _ & H & _).
    apply H; [discriminate|].
    intros label tz [E|[]]; inversion E; discriminate.
  - destruct (C Sample.japanShown Sample.noon [] R) as (_ & _ & _ & H).
    apply H; now left.
Defined.

(** ** Blank input *)

Lemma trim_blank (s : string) : Str.isEmpty (Str.trim s) = Str.blank s.
Proof.
  unfold Str.trim, Str.blank.
  induction s as [|c s IH]; [reflexivity|]; simpl Str.trimStart; simpl Str.every.
  destruct (Char.isWhiteSpace c) eqn:W; [exact IH|].
  rewrite trimEnd_cons, W; now destruct (Str.isEmpty (Str.trimEnd s)).
Qed.

Lemma isEmpty_true (s : string) : Str.isEmpty s = true <-> s = EmptyString.
Proof. destruct s; simpl; split; congruence. Qed.

(** ** What the handlers leave untouched *)

Lemma loading_renderEmpty m st : loading (renderEmpty m st) = loading st.
Proof. reflexivity. Qed.

Lemma loading_setResultsHeader q n c st : loading (setResultsHeader q n c st) = loading st.
Proof. unfold setResultsHeader; destruct (falsy q); reflexivity. Qed.

Lemma loading_setTimeBox m st : loading (setTimeBox m st) = loading st.
Proof. unfold setTimeBox; destruct (falsy m); reflexivity. Qed.

Lemma loading_appendCards (f : Place.t -> card) l st :
  loading (fold_left (fun st item => appendChild (f item) st) l st) = loading st.
Proof. revert st; induction l as [|x l IH]; intros st; simpl; [reflexivity | now rewrite IH]. Qed.

Lemma loading_renderRecommendations l b st :
  loading (renderRecommendations l b st) = loading st.
Proof.
  unfold renderRecommendations.
  destruct (length l =? 0)%nat; [reflexivity | now rewrite loading_appendCards].
Qed.

Lemma loading_stopClock st : loading (stopClock st) = loading st.
Proof. unfold stopClock; destruct (clockIntervalId st) as [[|n]|]; reflexivity. Qed.

Lemma loading_updateSingleClock now n tz st :
  loading (stateOf (updateSingleClock now n tz st)) = loading st.
Proof.
  unfold updateSingleClock; destruct (toLocaleTimeString now tz); simpl;
    [apply loading_setTimeBox | reflexivity].
Qed.

Lemma loading_updateMultiClock now l st :
  loading (stateOf (updateMultiClock now l st)) = loading st.
Proof.
  unfold updateMultiClock; destruct (clockLines now l); simpl;
    [apply loading_setTimeBox | reflexivity].
Qed.

Lemma loading_startSingleClock now n tz st :
  loading (stateOf (startSingleClock now n tz st)) = loading st.
Proof.
  unfold startSingleClock; destruct tz as [z|].
  - pose proof (loading_updateSingleClock now n z (stopClock st)) as U.
    destruct (updateSingleClock now n z (stopClock st)) as [st0|e st0];
      simpl stateOf in U; (transitivity (loading st0);
                           [reflexivity | rewrite U; apply loading_stopClock]).
  - simpl; now rewrite loading_setTimeBox, loading_stopClock.
Qed.

Lemma loading_startMultiClock now l st :
  loading (stateOf (startMultiClock now l st)) = loading st.
Proof.
  unfold startMultiClock; destruct l as [|x l].
  - simpl; now rewrite loading_setTimeBox, loading_stopClock.
  - pose proof (loading_updateMultiClock now (x :: l) (stopClock st)) as U.
    destruct (updateMultiClock now (x :: l) (stopClock st)) as [st0|e st0];
      simpl stateOf in U; (transitivity (loading st0);
                           [reflexivity | rewrite U; apply loading_stopClock]).
Qed.

Ltac frame_loading :=
  repeat (progress
            rewrite ?loading_startSingleClock, ?loading_startMultiClock,
              ?loading_renderEmpty, ?loading_renderRecommendations,
              ?loading_setResultsHeader, ?loading_setTimeBox, ?loading_stopClock).

Lemma loading_clearResults st : loading (clearResults st) = loading st.
Proof. unfold clearResults; now frame_loading. Qed.

Lemma loading_handleSearch now st :
  loading (stateOf (handleSearch now st)) = loading st.
Proof.
  unfold handleSearch; cbv zeta.
  repeat match goal with
         | |- context [if ?b then _ else _] => destruct b
         | |- context [match ?x with _ => _ end] => destruct x
         end;
    simpl stateOf; now frame_loading.
Qed.

(** Only the settling of the fetch changes the document's share. *)
Lemma loading_step st ev :
  loading (step st ev) = loading st
  \/ exists response, ev = FetchSettled response /\ fetching st = true.
Proof.
  destruct ev as [value|now| |pageName|response|id now]; simpl.
  - now left.
  - left; apply loading_handleSearch.
  - left; apply loading_clearResults.
  - left; unfold showPage.
    destruct (pageName =? "home"); [reflexivity|].
    destruct (pageName =? "about"); apply loading_clearResults.
  - destruct (fetching st); [right; eauto | now left].
  - left; destruct (lookupInterval id (intervals st)) as [[n tz|l]|]; [| |reflexivity];
      simpl; [apply loading_updateSingleClock | apply loading_updateMultiClock].
Qed.

(** While the fetch is outstanding nothing is loaded. *)
Lemma reachable_fetching st : reachable st -> fetching st = true -> apiData st = None.
Proof.
  induction 1 as [st (H & _)|st ev R IH]; [now intros _|].
  destruct (loading_step st ev) as [L|(response & -> & F)].
  - unfold loading in L; inversion L as [[L1 L2]]. rewrite L1, L2; exact IH.
  - simpl; rewrite F. destruct response; simpl; discriminate.
Qed.

(** Once the fetch has failed the document stays unset. *)
Lemma unset_forever st st' :
  loading st = (None, false) -> reachableFrom st st' -> loading st' = (None, false).
Proof.
  intros H; induction 1 as [|st' ev _ IH]; [assumption|].
  destruct (loading_step st' ev) as [L|(response & -> & F)]; [congruence|].
  unfold loading in IH; inversion IH; congruence.
Qed.

Lemma reachableFrom_run st evs : reachableFrom st (run st evs).
Proof.
  unfold run; rewrite <- (rev_involutive evs).
  induction (rev evs) as [|ev l IH]; simpl; [constructor|].
  rewrite fold_left_app; simpl. now constructor.
Qed.

Lemma stopClock_set_apiData d st :
  stopClock (set_apiData d st) = set_apiData d (stopClock st).
Proof. unfold stopClock; simpl; destruct (clockIntervalId st) as [[|n]|]; reflexivity. Qed.

(** ** Rejected searches *)

(** C5: a search whose raw input is empty or consists of white space only
    is rejected before any tier is evaluated: the guidance message is
    shown, no card is rendered, the results header is hidden, and the
    clock is stopped (no repeating task is left, the time box is hidden).
    The outcome does not depend on the document. *)
Theorem empty_query_rejected (now : clock) (st : state) :
  Str.blank (searchInput st) = true ->
  let st' := renderEmpty msgEmptyQuery
               (setResultsHeader None 0 None (setTimeBox None (stopClock st))) in
  handleSearch now st = Returned st'
  /\ emptyState st' = Some msgEmptyQuery
  /\ results st' = []
  /\ headerShown (resultsHeader st') = false
  /\ timeBox st' = None
  /\ (reachable st -> intervals st' = [] /\ clockIntervalId st' = None)
  /\ (forall data, handleSearch now (set_apiData data st) = Returned (set_apiData data st')).
Proof.
  intros B st'.
  assert (E : forall s, searchInput s = searchInput st -> 
                        handleSearch now s
                        = Returned (renderEmpty msgEmptyQuery
                                      (setResultsHeader None 0 None
                                         (setTimeBox None (stopClock s))))).
  { intros s Hs; unfold handleSearch.
    now rewrite orString_some, Hs, trim_blank, B. }
  repeat split; try reflexivity.
  - now apply E.
  - apply clockInvariant_reachable, stopClock_stopped in H.
    assert (T : timers st' = timers (stopClock st)) by (unfold st'; now frame).
    rewrite H in T; now apply timers_fields in T.
  - apply clockInvariant_reachable, stopClock_stopped in H.
    assert (T : timers st' = timers (stopClock st)) by (unfold st'; now frame).
    rewrite H in T; now apply timers_fields in T.
  - intros data; rewrite (E (set_apiData data st) eq_refl), stopClock_set_apiData.
    reflexivity.
Qed.

Lemma empty_query_rejected_witness :
  let st := run Sample.japanShown [Input "   "] in
  let st' := stateOf (handleSearch Sample.noon st) in
  emptyState st' = Some msgEmptyQuery /\ results st' = []
  /\ headerShown (resultsHeader st') = false /\ intervals st' = [].
Proof.
  intros st st'.
  destruct (empty_query_rejected Sample.noon st eq_refl) as (E & H1 & H2 & H3 & _ & H5 & _).
  assert (R : reachable st)
    by (apply reachable_run, reachable_run, reachable_run, reachable_pageLoad).
  unfold st'; rewrite E; simpl stateOf.
  exact (conj H1 (conj H2 (conj H3 (proj1 (H5 R))))).
Defined.

(** C6: while the document is not loaded, before the fetch settles or
    after it failed, a search with a non-blank query is rejected with the
    message "Data is still loading", which no other path shows, and no
    tier is evaluated.  A failed fetch shows its own empty-state message
    and leaves the document unset, and from then on every state has it
    unset, so every later search is rejected the same way. *)
Theorem search_before_load_rejected :
  (forall now st,
      apiData st = None -> Str.blank (searchInput st) = false ->
      let st' := renderEmpty msgLoading
                   (setResultsHeader None 0 None (setTimeBox None (stopClock st))) in
      handleSearch now st = Returned st'
      /\ emptyState st' = Some msgLoading /\ results st' = []
      /\ headerShown (resultsHeader st') = false)
  /\ (msgLoading <> msgEmptyQuery /\ msgLoading <> msgNoMatch
      /\ msgLoading <> msgNoRecommendations /\ msgLoading <> msgLoadFailed)
  /\ (forall st, reachable st -> fetching st = true -> apiData st = None)
  /\ (forall st,
        reachable st -> fetching st = true ->
        let failed := step st (FetchSettled None) in
        emptyState failed = Some msgLoadFailed /\ results failed = []
        /\ apiData failed = None
        /\ forall st',
            reachableFrom failed st' ->
            apiData st' = None
            /\ forall now,
                Str.blank (searchInput st') = false ->
                emptyState (step st' (ClickSearch now)) = Some msgLoading).
Proof.
  assert (A : forall now st,
             apiData st = None -> Str.blank (searchInput st) = false ->
             handleSearch now st
             = Returned (renderEmpty msgLoading
                           (setResultsHeader None 0 None (setTimeBox None (stopClock st))))).
  { intros now st N B; unfold handleSearch.
    now rewrite orString_some, trim_blank, B, N. }
  split; [intros now st N B; repeat split; now try apply A|].
  split; [repeat split; discriminate|].
  split; [exact reachable_fetching|].
  intros st R F failed.
  pose proof (reachable_fetching st R F) as N.
  assert (L : loading failed = (None, false)).
  { unfold failed; simpl; rewrite F; unfold loading; simpl; now rewrite N. }
  split; [|split; [|split]].
  - unfold failed; simpl; now rewrite F.
  - unfold failed; simpl; now rewrite F.
  - unfold loading in L; now injection L.
  - intros st' H.
    pose proof (unset_forever failed st' L H) as L'.
    unfold loading in L'; injection L' as L1 L2.
    split; [exact L1|].
    intros now B; simpl; now rewrite (A now st' L1 B).
Qed.

Lemma search_before_load_rejected_witness :
  (let st := run pageLoad [Input "japan"] in
   emptyState (stateOf (handleSearch Sample.noon st)) = Some msgLoading)
  /\ apiData pageLoad = None
  /\ (let st' := run (step pageLoad (FetchSettled None)) [Input "japan"] in
      apiData st' = None
      /\ emptyState (step st' (ClickSearch Sample.noon)) = Some msgLoading).
Proof.
  destruct search_before_load_rejected as (A & _ & B & C).
  split; [|split].
  - intros st. destruct (A Sample.noon st eq_refl eq_refl) as (E & H & _).
    rewrite E; exact H.
  - exact (B pageLoad reachable_pageLoad eq_refl).
  - intros st'.
    destruct (C pageLoad reachable_pageLoad eq_refl) as (_ & _ & _ & H).
    destruct (H st' (reachableFrom_run _ _)) as (H1 & H2).
    split; [exact H1 | exact (H2 Sample.noon eq_refl)].
Defined.


(** ** Rendering *)

Lemma results_appendCards (f : Place.t -> card) l st :
  results (fold_left (fun st item => appendChild (f item) st) l st)
  = (results st ++ map f l)%list.
Proof.
  revert st; induction l as [|x l IH]; intros st; simpl.
  - now rewrite app_nil_r.
  - rewrite IH; simpl. now rewrite <- app_assoc.
Qed.

Lemma emptyState_appendCards (f : Place.t -> card) l st :
  emptyState (fold_left (fun st item => appendChild (f item) st) l st) = emptyState st.
Proof. revert st; induction l as [|x l IH]; intros st; simpl; [reflexivity | now rewrite IH]. Qed.

Lemma resultsHeader_appendCards (f : Place.t -> card) l st :
  resultsHeader (fold_left (fun st item => appendChild (f item) st) l st) = resultsHeader st.
Proof. revert st; induction l as [|x l IH]; intros st; simpl; [reflexivity | now rewrite IH]. Qed.

Lemma firstn_window {A : Type} (l : list A) :
  firstn (Nat.max 2 (Nat.min (length l) 6)) l = firstn 6 l.
Proof.
  destruct l as [|a [|b l]]; try reflexivity.
  replace (Nat.max 2 (Nat.min (length (a :: b :: l)) 6))
    with (Nat.min (length (a :: b :: l)) 6) by (simpl; lia).
  destruct (Nat.le_ge_cases (length (a :: b :: l)) 6) as [H|H].
  - rewrite Nat.min_l by exact H. now rewrite !firstn_all2 by lia.
  - now rewrite Nat.min_r by exact H.
Qed.

Lemma firstn_six {A : Type} (l : list A) :
  firstn (Nat.min 6 (length l)) l = firstn 6 l.
Proof.
  destruct (Nat.le_ge_cases (length l) 6) as [H|H].
  - rewrite Nat.min_r by exact H. now rewrite !firstn_all2 by lia.
  - now rewrite Nat.min_l by exact H.
Qed.

Lemma rendered_renderRecommendations items badgeLabel st :
  rendered (renderRecommendations items badgeLabel st)
  = (map (makeCard badgeLabel) (firstn 6 items),
     (if (length items =? 0)%nat then Some msgNoRecommendations else None),
     resultsHeader st).
Proof.
  unfold renderRecommendations, rendered; cbv zeta.
  destruct items as [|x items]; [reflexivity|].
  change (length (x :: items) =? 0)%nat with false; cbv iota.
  now rewrite results_appendCards, emptyState_appendCards,
    resultsHeader_appendCards, firstn_window.
Qed.

Lemma rendered_fields st a b c :
  rendered st = (a, b, c) -> results st = a /\ emptyState st = b /\ resultsHeader st = c.
Proof. unfold rendered; intros E; injection E; auto. Qed.

Lemma rendered_eq st st' :
  rendered st = rendered st' ->
  results st = results st' /\ emptyState st = emptyState st'
  /\ resultsHeader st = resultsHeader st'.
Proof. unfold rendered; intros E; injection E; auto. Qed.

(** C2, as the code has it: the renderer shows the first min(6, count)
    items of the list, one card each: one card for one item, all of them
    for two to six (which is max(2, min(6, count)) from two items on), six
    for more; for an empty list it shows no card but the empty-state
    message "No recommendations found for that search.". *)
Theorem renderRecommendations_window (items : list Place.t) (badgeLabel : option string)
    (st : state) :
  let count := length items in
  let st' := renderRecommendations items badgeLabel st in
  results st' = map (makeCard badgeLabel) (firstn (Nat.min 6 count) items)
  /\ length (results st') = Nat.min 6 count
  /\ length (results st') = Spec.cardsShown count
  /\ length (results st')
     = (if (count <? 2)%nat then count else Nat.max 2 (Nat.min 6 count))
  /\ emptyState st'
     = (if (count =? 0)%nat then Some msgNoRecommendations else None).
Proof.
  intros count st'.
  destruct (rendered_fields _ _ _ _ (rendered_renderRecommendations items badgeLabel st))
    as (R & E & _).
  fold st' in R, E.
  assert (L : length (results st') = Nat.min 6 count)
    by (rewrite R, length_map, length_firstn; reflexivity).
  split; [rewrite R; unfold count; now rewrite firstn_six|].
  split; [exact L|].
  split; [|split; [|exact E]]; rewrite L.
  - unfold Spec.cardsShown.
    destruct (count =? 0)%nat eqn:E0; [apply Nat.eqb_eq in E0; now rewrite E0|].
    destruct (count =? 1)%nat eqn:E1; [apply Nat.eqb_eq in E1; now rewrite E1|].
    destruct (count <=? 6)%nat eqn:E6;
      [apply Nat.leb_le in E6 | apply Nat.leb_gt in E6]; lia.
  - destruct (count <? 2)%nat eqn:E2;
      [apply Nat.ltb_lt in E2 | apply Nat.ltb_ge in E2]; lia.
Qed.

(** C2, as the specification words it, fails for a list of one item: one
    card is shown, and max(2, min(6, 1)) is 2. *)
Lemma renderRecommendations_one_item :
  ~ (1 <= length [Sample.kyoto] ->
     length (results (renderRecommendations [Sample.kyoto] (Some "City") pageLoad))
     = Nat.max 2 (Nat.min 6 (length [Sample.kyoto]))).
Proof. intros H; specialize (H (le_n 1)); vm_compute in H; discriminate. Qed.

(** ** Normalisation and surrounding white space *)

Lemma isEmpty_toLowerCase (s : string) :
  Str.isEmpty (Str.toLowerCase s) = Str.isEmpty s.
Proof. destruct s; reflexivity. Qed.

Lemma toLowerCase_trimStart (s : string) :
  Str.toLowerCase (Str.trimStart s) = Str.trimStart (Str.toLowerCase s).
Proof.
  induction s as [|c s IH]; simpl; [reflexivity|].
  rewrite toLower_whiteSpace. destruct (Char.isWhiteSpace c); [exact IH | reflexivity].
Qed.

Lemma toLowerCase_trimEnd (s : string) :
  Str.toLowerCase (Str.trimEnd s) = Str.trimEnd (Str.toLowerCase s).
Proof.
  induction s as [|c s IH]; [reflexivity|].
  change (Str.toLowerCase (String c s))
    with (String (Char.toLower c) (Str.toLowerCase s)).
  rewrite !trimEnd_cons, <- IH, isEmpty_toLowerCase, toLower_whiteSpace.
  destruct (Str.isEmpty (Str.trimEnd s)); [|reflexivity].
  destruct (Char.isWhiteSpace c); reflexivity.
Qed.

Lemma toLowerCase_trim (s : string) :
  Str.toLowerCase (Str.trim s) = Str.trim (Str.toLowerCase s).
Proof. unfold Str.trim; now rewrite toLowerCase_trimEnd, toLowerCase_trimStart. Qed.

Lemma trimStart_removePunctuation (s : string) :
  Str.trimStart (Str.removePunctuation (Str.trimStart s))
  = Str.trimStart (Str.removePunctuation s).
Proof.
  induction s as [|c s IH]; [reflexivity|].
  simpl Str.trimStart at 2.
  destruct (Char.isWhiteSpace c) eqn:W; [|reflexivity].
  rewrite IH; simpl Str.removePunctuation at 2.
  rewrite (whiteSpace_not_punctuation c W); simpl; now rewrite W.
Qed.

Lemma trimEnd_removePunctuation (s : string) :
  Str.trimEnd (Str.removePunctuation (Str.trimEnd s))
  = Str.trimEnd (Str.removePunctuation s).
Proof.
  induction s as [|c s IH]; [reflexivity|].
  assert (R : forall x, Str.removePunctuation (String c x)
                        = if Char.isPunctuation c then Str.removePunctuation x
                          else String c (Str.removePunctuation x)) by reflexivity.
  rewrite trimEnd_cons, (R s).
  destruct (Str.trimEnd s) as [|d r] eqn:E; simpl Str.isEmpty; cbv iota.
  - simpl in IH.
    destruct (Char.isWhiteSpace c) eqn:W.
    + rewrite (whiteSpace_not_punctuation c W), trimEnd_cons, <- IH; simpl; now rewrite W.
    + rewrite (R EmptyString).
      destruct (Char.isPunctuation c); [exact IH|].
      now rewrite !trimEnd_cons, <- IH.
  - rewrite (R (String d r)).
    destruct (Char.isPunctuation c); [exact IH|].
    now rewrite !trimEnd_cons, IH.
Qed.

Lemma trim_removePunctuation (s : string) :
  Str.trim (Str.removePunctuation (Str.trim s)) = Str.trim (Str.removePunctuation s).
Proof.
  unfold Str.trim.
  rewrite <- (trimStart_trimEnd (Str.removePunctuation (Str.trimEnd (Str.trimStart s)))).
  rewrite trimEnd_removePunctuation, trimStart_trimEnd, trimStart_removePunctuation.
  reflexivity.
Qed.

(** Trimming the raw input first, as [handleSearch] does, changes nothing. *)
Lemma normalizeKeyword_trim (s : string) :
  normalizeKeyword (Str.trim s) = normalizeKeyword s.
Proof.
  unfold normalizeKeyword; now rewrite toLowerCase_trim, trim_removePunctuation.
Qed.

Lemma normalizeKeyword_nonempty (s : string) :
  normalizeKeyword s <> EmptyString -> Str.isEmpty s = false.
Proof. destruct s; [intros H; now elim H | reflexivity]. Qed.

(** ** What the clock leaves untouched *)

Lemma rendered_setTimeBox m st : rendered (setTimeBox m st) = rendered st.
Proof. unfold setTimeBox; destruct (falsy m); reflexivity. Qed.

Lemma rendered_stopClock st : rendered (stopClock st) = rendered st.
Proof. unfold stopClock; destruct (clockIntervalId st) as [[|n]|]; reflexivity. Qed.

Lemma rendered_startSingleClock now n tz st :
  rendered (stateOf (startSingleClock now n tz st)) = rendered st.
Proof.
  unfold startSingleClock, updateSingleClock; destruct tz as [z|]; simpl.
  - destruct (toLocaleTimeString now z); simpl.
    + transitivity (rendered (setTimeBox
                                (Some ("Current time in " ++ display n ++ ": " ++ s))
                                (stopClock st))); [reflexivity|].
      now rewrite rendered_setTimeBox, rendered_stopClock.
    + apply rendered_stopClock.
  - now rewrite rendered_setTimeBox, rendered_stopClock.
Qed.

Lemma rendered_startMultiClock now l st :
  rendered (stateOf (startMultiClock now l st)) = rendered st.
Proof.
  unfold startMultiClock, updateMultiClock; destruct l as [|x l].
  - simpl; now rewrite rendered_setTimeBox, rendered_stopClock.
  - destruct (clockLines now (x :: l)) as [lines|]; simpl.
    + transitivity (rendered (setTimeBox
                                (Some ("Current times:" ++ Str.newline
                                       ++ Str.join Str.newline lines))
                                (stopClock st))); [reflexivity|].
      now rewrite rendered_setTimeBox, rendered_stopClock.
    + apply rendered_stopClock.
Qed.

Lemma resultsHeader_setResultsHeader raw n c st st0 :
  resultsHeader (setResultsHeader (Some raw) n c st)
  = resultsHeader (setResultsHeader (Some raw) n c st0).
Proof. unfold setResultsHeader; destruct (falsy (Some raw)); reflexivity. Qed.

(** ** The keyword tiers *)

Lemma falsy_some (s : string) : falsy (Some s) = Str.isEmpty s.
Proof. destruct s; reflexivity. Qed.

(** C4: every raw query that normalises to "beach" selects the beaches
    tier: the search returns normally, the header carries the category
    "Beaches" and the length of the document's beaches list, and the
    cards are those of that list with the badge "Beaches".  "beach" and
    "beaches" in any letter case and with surrounding white space
    normalise to "beach".  Normalisation lower-cases, deletes every code
    unit that is not a word character, white space or a hyphen, trims,
    and maps exactly "beaches", "temples" and "countries" to their
    singular. *)
Theorem beach_keyword :
  (forall now st data,
      apiData st = Some data ->
      normalizeKeyword (searchInput st) = "beach" ->
      let raw := Str.trim (searchInput st) in
      let list := orList (beaches data) in
      let st' := renderRecommendations list (Some "Beaches")
                   (setResultsHeader (Some raw) (length list) (Some "Beaches")
                      (setTimeBox None (stopClock st))) in
      handleSearch now st = Returned st'
      /\ resultsHeader st'
         = mkHeader true ("Showing results for: " ++ Str.dquote ++ raw ++ Str.dquote)
             (MetaFound "Category: Beaches" (length list))
      /\ results st' = map (makeCard (Some "Beaches")) (firstn 6 list)
      /\ emptyState st'
         = (if (length list =? 0)%nat then Some msgNoRecommendations else None))
  /\ (forall raw,
        Str.toLowerCase (Str.trim raw) = "beach"
        \/ Str.toLowerCase (Str.trim raw) = "beaches" ->
        normalizeKeyword raw = "beach")
  /\ (forall text,
        normalizeKeyword text
        = let t := Str.trim (Str.removePunctuation (Str.toLowerCase text)) in
          if t =? "beaches" then "beach"
          else if t =? "temples" then "temple"
          else if t =? "countries" then "country"
          else t)
  /\ (forall c s,
        Str.removePunctuation (String c s)
        = if Char.isWord c || Char.isWhiteSpace c || Char.isHyphen c
          then String c (Str.removePunctuation s)
          else Str.removePunctuation s)
  /\ (forall c s, Str.toLowerCase (String c s) = String (Char.toLower c) (Str.toLowerCase s))
  /\ normalizeKeyword "beaches" = "beach"
  /\ normalizeKeyword "temples" = "temple"
  /\ normalizeKeyword "countries" = "country".
Proof.
  split; [|split; [|split; [|split; [|repeat split]]]].
  - intros now st data D K raw list st'.
    rewrite <- normalizeKeyword_trim in K; fold raw in K.
    assert (N : Str.isEmpty raw = false)
      by (apply normalizeKeyword_nonempty; rewrite K; discriminate).
    destruct (rendered_fields _ _ _ _
                (rendered_renderRecommendations list (Some "Beaches")
                   (setResultsHeader (Some raw) (length list) (Some "Beaches")
                      (setTimeBox None (stopClock st))))) as (R & E & H).
    fold st' in R, E, H.
    split; [|split; [|split]]; trivial.
    + unfold handleSearch; rewrite orString_some; fold raw.
      now rewrite N, D, K.
    + rewrite H; unfold setResultsHeader; now rewrite falsy_some, N.
  - intros raw H. rewrite <- normalizeKeyword_trim.
    unfold normalizeKeyword. destruct H as [-> | ->]; reflexivity.
  - reflexivity.
  - intros c s; simpl; unfold Char.isPunctuation.
    now destruct (Char.isWord c || Char.isWhiteSpace c || Char.isHyphen c).
Qed.

Lemma beach_keyword_witness :
  let st := run Sample.japanShown [Input "  BeaCHes! "] in
  let st' := stateOf (handleSearch Sample.noon st) in
  results st' = [makeCard (Some "Beaches") Sample.bondi]
  /\ headerMeta (resultsHeader st') = MetaFound "Category: Beaches" 1
  /\ normalizeKeyword "Beach " = "beach".
Proof.
  intros st st'.
  destruct beach_keyword as (A & B & _).
  destruct (A Sample.noon st Sample.data eq_refl eq_refl) as (E & H & R & _).
  unfold st'; rewrite E; simpl stateOf.
  split; [exact R|]. split; [exact (f_equal headerMeta H)|].
  apply B; left; reflexivity.
Defined.

(** ** The tier cascade *)

Lemma fires_select (data : Dataset) (query : string) (tier : Tier.t) :
  Tier.fires data query tier = true <-> tier = Tier.select data query.
Proof.
  assert (N : Tier.applies data query Tier.NoMatch = true) by reflexivity.
  unfold Tier.fires, Tier.select, Tier.order.
  revert N; generalize (Tier.applies data query); intros app N.
  destruct (app Tier.KeywordBeach) eqn:A1;
  destruct (app Tier.KeywordTemple) eqn:A2;
  destruct (app Tier.KeywordCountry) eqn:A3;
  destruct (app Tier.ExactCountry) eqn:A4;
  destruct (app Tier.SubstringCountry) eqn:A5;
  destruct (app Tier.SubstringCity) eqn:A6;
  destruct tier; simpl;
    rewrite ?A1, ?A2, ?A3, ?A4, ?A5, ?A6, ?N; simpl;
    split; intros H; first [reflexivity | discriminate H].
Qed.

Lemma existsb_find {A : Type} (f : A -> bool) (l : list A) :
  existsb f l = match find f l with Some _ => true | None => false end.
Proof. induction l as [|x l IH]; simpl; [reflexivity|]; now destruct (f x). Qed.

Lemma existsb_filter {A : Type} (f : A -> bool) (l : list A) :
  existsb f l = match filter f l with [] => false | _ :: _ => true end.
Proof. induction l as [|x l IH]; simpl; [reflexivity|]; now destruct (f x). Qed.

Lemma find_first {A : Type} (f : A -> bool) (pre post : list A) (x : A) :
  f x = true -> (forall y, In y pre -> f y = false) ->
  find f (pre ++ x :: post) = Some x.
Proof.
  intros Hx; induction pre as [|y pre IH]; intros H; simpl; [now rewrite Hx|].
  rewrite (H y) by now left. apply IH; intros z Hz; apply H; now right.
Qed.

Lemma select_cascade (data : Dataset) (query : string) :
  Tier.select data query =
    if query =? "beach" then Tier.KeywordBeach
    else if query =? "temple" then Tier.KeywordTemple
    else if query =? "country" then Tier.KeywordCountry
    else match find (fun c => Tier.countryKey c =? query) (orList (countries data)) with
         | Some _ => Tier.ExactCountry
         | None =>
             match find (fun c => Str.includes (Tier.countryKey c) query)
                     (orList (countries data)) with
             | Some _ => Tier.SubstringCountry
             | None =>
                 match filter (fun p => Str.includes (Tier.cityKey p) query)
                         (flattenAllCities (orList (countries data))) with
                 | _ :: _ => Tier.SubstringCity
                 | [] => Tier.NoMatch
                 end
             end
         end.
Proof.
  unfold Tier.select, Tier.order; cbn [find Tier.applies].
  rewrite (existsb_filter (fun p => Str.includes (Tier.cityKey p) query)).
  rewrite !existsb_find.
  destruct (query =? "beach"); [reflexivity|].
  destruct (query =? "temple"); [reflexivity|].
  destruct (query =? "country"); [reflexivity|].
  destruct (find _ _); [reflexivity|].
  destruct (find _ _); [reflexivity|].
  destruct (filter _ _); reflexivity.
Qed.

Lemma handleSearch_rendered now st data :
  apiData st = Some data ->
  Str.blank (searchInput st) = false ->
  let raw := Str.trim (searchInput st) in
  let query := normalizeKeyword raw in
  let tier := Tier.select data query in
  let r := Tier.resultOf data query tier in
  rendered (stateOf (handleSearch now st))
  = (map (makeCard (Tier.badge r)) (firstn 6 (Tier.items r)),
     Tier.emptyMessage tier r,
     resultsHeader (setResultsHeader (Some raw) (length (Tier.items r)) (Tier.label r) st)).
Proof.
  intros D B raw query tier r; unfold r, tier; clear r tier.
  rewrite select_cascade.
  unfold handleSearch; rewrite orString_some, trim_blank, B, D; fold raw; fold query.
  cbv zeta; unfold Tier.countryKey, Tier.cityKey.
  destruct (query =? "beach");
    [simpl stateOf; rewrite rendered_renderRecommendations;
     now rewrite (resultsHeader_setResultsHeader _ _ _ _ st)|].
  destruct (query =? "temple");
    [simpl stateOf; rewrite rendered_renderRecommendations;
     now rewrite (resultsHeader_setResultsHeader _ _ _ _ st)|].
  destruct (query =? "country");
    [now rewrite rendered_startMultiClock, rendered_renderRecommendations|].
  destruct (find (fun c => Str.toLowerCase (orString (Country.name c) EmptyString) =? query)
              (orList (countries data))) as [exactCountry|] eqn:F1.
  { rewrite rendered_startSingleClock, rendered_renderRecommendations.
    simpl; unfold Tier.countryKey; now rewrite F1. }
  destruct (find (fun c => Str.includes
                             (Str.toLowerCase (orString (Country.name c) EmptyString)) query)
              (orList (countries data))) as [partialCountry|] eqn:F2.
  { rewrite rendered_startSingleClock, rendered_renderRecommendations.
    simpl; unfold Tier.countryKey; now rewrite F2. }
  destruct (filter (fun p => Str.includes
                               (Str.toLowerCase (orString (Place.name p) EmptyString)) query)
              (flattenAllCities (orList (countries data)))) as [|first rest] eqn:F3.
  { unfold rendered; cbn [stateOf renderEmpty results emptyState resultsHeader
                             set_results set_emptyState].
    f_equal; apply resultsHeader_setResultsHeader. }
  destruct (negb (falsy (inferCountryFromCityName (Place.name first)))).
  - rewrite rendered_startSingleClock, rendered_renderRecommendations.
    simpl Tier.resultOf; unfold Tier.cityKey; now rewrite F3.
  - simpl stateOf.
    rewrite rendered_setTimeBox, rendered_stopClock, rendered_renderRecommendations.
    simpl Tier.resultOf; unfold Tier.cityKey; now rewrite F3.
Qed.

Lemma applies_keyword (data : Dataset) (query : string) :
  query <> "beach" -> query <> "temple" -> query <> "country" ->
  Tier.applies data query Tier.KeywordBeach = false
  /\ Tier.applies data query Tier.KeywordTemple = false
  /\ Tier.applies data query Tier.KeywordCountry = false.
Proof. intros H1 H2 H3; simpl; now rewrite !String.eqb_neq. Qed.

(** C1: against a loaded document exactly one tier fires for every query,
    the first in the order keyword-beach, keyword-temple, keyword-country,
    exact country name, substring of a country name, substring of a city
    name, no match whose condition holds, and the search displays that
    tier's result: its label and count in the header, its items as cards,
    its empty-state message.  A query that is not a keyword and equals,
    case-insensitively, the name of a country resolves through the exact
    tier to the cities of the first such country, whatever the other
    country names contain; a keyword resolves through its keyword tier
    whatever the countries and cities are called. *)
Theorem one_tier_fires :
  (forall data query,
      exists tier,
        Tier.fires data query tier = true
        /\ forall other, Tier.fires data query other = true -> other = tier)
  /\ (forall now st data tier,
        apiData st = Some data ->
        Str.blank (searchInput st) = false ->
        let raw := Str.trim (searchInput st) in
        let query := normalizeKeyword raw in
        Tier.fires data query tier = true ->
        let r := Tier.resultOf data query tier in
        let st' := stateOf (handleSearch now st) in
        resultsHeader st'
        = resultsHeader (setResultsHeader (Some raw) (length (Tier.items r)) (Tier.label r) st)
        /\ results st' = map (makeCard (Tier.badge r)) (firstn 6 (Tier.items r))
        /\ emptyState st' = Tier.emptyMessage tier r)
  /\ (forall data raw pre c post,
        let query := normalizeKeyword raw in
        orList (countries data) = (pre ++ c :: post)%list ->
        Str.toLowerCase (orString (Country.name c) EmptyString) = Str.toLowerCase query ->
        (forall b, In b pre ->
                   Str.toLowerCase (orString (Country.name b) EmptyString)
                   <> Str.toLowerCase query) ->
        query <> "beach" -> query <> "temple" -> query <> "country" ->
        Tier.fires data query Tier.ExactCountry = true
        /\ Tier.resultOf data query Tier.ExactCountry
           = Tier.mkResult (orList (Country.cities c))
               (Some (display (Country.name c) ++ " (Cities)")) (Country.name c))
  /\ (forall data,
        Tier.fires data "beach" Tier.KeywordBeach = true
        /\ Tier.fires data "temple" Tier.KeywordTemple = true
        /\ Tier.fires data "country" Tier.KeywordCountry = true).
Proof.
  split; [|split; [|split]].
  - intros data query; exists (Tier.select data query); split.
    + now apply fires_select.
    + intros other H; now apply fires_select.
  - intros now st data tier D B raw query F r st'.
    apply fires_select in F.
    pose proof (handleSearch_rendered now st data D B) as H; cbv zeta in H.
    fold raw in H; fold query in H; rewrite <- F in H; fold r in H; fold st' in H.
    apply rendered_fields in H; destruct H as (H1 & H2 & H3); auto.
  - intros data raw pre c post query C E N K1 K2 K3.
    destruct (normalizeKeyword_fixed raw) as (L & _); fold query in L.
    rewrite L in E, N.
    assert (F : find (fun c => Tier.countryKey c =? query) (orList (countries data)) = Some c).
    { rewrite C; apply find_first; [now apply String.eqb_eq|].
      intros b Hb; apply String.eqb_neq; now apply N. }
    destruct (applies_keyword data query K1 K2 K3) as (A1 & A2 & A3).
    split.
    + unfold Tier.fires; cbn [Tier.before Tier.order Tier.eqb forallb].
      rewrite A1, A2, A3; simpl negb; simpl andb.
      rewrite andb_true_r; unfold Tier.applies; now rewrite existsb_find, F.
    + unfold Tier.resultOf; now rewrite F.
  - intros data; repeat split.
Qed.

Lemma one_tier_fires_witness :
  let st := run Sample.loaded [Input " Japan "] in
  let st' := stateOf (handleSearch Sample.noon st) in
  Tier.fires Sample.data "japan" Tier.ExactCountry = true
  /\ results st' = map (makeCard (Some "Japan")) [Sample.kyoto; Sample.tokyo]
  /\ emptyState st' = None.
Proof.
  intros st st'.
  destruct one_tier_fires as (_ & A & B & _).
  destruct (B Sample.data " Japan " [Sample.japanAlps] Sample.japan [Sample.brazil]
              eq_refl eq_refl) as (F & _); try discriminate.
  { intros b [<-|[]]; discriminate. }
  split; [exact F|].
  destruct (A Sample.noon st Sample.data Tier.ExactCountry eq_refl eq_refl F)
    as (_ & R & E).
  split; [exact R | exact E].
Defined.

(** ** Absent fields *)

Section Document.

Variable doc : option Dataset.

Lemma setTimeBox_set_apiData m st :
  setTimeBox m (set_apiData doc st) = set_apiData doc (setTimeBox m st).
Proof. unfold setTimeBox; destruct (falsy m); reflexivity. Qed.

Lemma setResultsHeader_set_apiData q n c st :
  setResultsHeader q n c (set_apiData doc st) = set_apiData doc (setResultsHeader q n c st).
Proof. unfold setResultsHeader; destruct (falsy q); reflexivity. Qed.

Lemma renderEmpty_set_apiData m st :
  renderEmpty m (set_apiData doc st) = set_apiData doc (renderEmpty m st).
Proof. reflexivity. Qed.

Lemma appendCards_set_apiData (f : Place.t -> card) l st :
  fold_left (fun st item => appendChild (f item) st) l (set_apiData doc st)
  = set_apiData doc (fold_left (fun st item => appendChild (f item) st) l st).
Proof.
  revert st; induction l as [|x l IH]; intros st; simpl; [reflexivity|].
  now rewrite <- IH.
Qed.

Lemma renderRecommendations_set_apiData l b st :
  renderRecommendations l b (set_apiData doc st)
  = set_apiData doc (renderRecommendations l b st).
Proof.
  unfold renderRecommendations; cbv zeta.
  destruct (length l =? 0)%nat; [reflexivity|].
  now rewrite <- appendCards_set_apiData.
Qed.

Lemma startSingleClock_set_apiData now n tz st :
  startSingleClock now n tz (set_apiData doc st)
  = mapOutcome (set_apiData doc) (startSingleClock now n tz st).
Proof.
  unfold startSingleClock, updateSingleClock; cbv zeta.
  rewrite stopClock_set_apiData.
  destruct tz as [z|]; [|simpl; now rewrite setTimeBox_set_apiData].
  destruct (toLocaleTimeString now z); simpl; [|reflexivity].
  now rewrite setTimeBox_set_apiData.
Qed.

Lemma startMultiClock_set_apiData now l st :
  startMultiClock now l (set_apiData doc st)
  = mapOutcome (set_apiData doc) (startMultiClock now l st).
Proof.
  unfold startMultiClock, updateMultiClock; cbv zeta.
  rewrite stopClock_set_apiData.
  destruct l as [|x l]; [simpl; now rewrite setTimeBox_set_apiData|].
  destruct (clockLines now (x :: l)); simpl; [|reflexivity].
  now rewrite setTimeBox_set_apiData.
Qed.

End Document.

Ltac push_document :=
  repeat (progress
            rewrite ?stopClock_set_apiData, ?setTimeBox_set_apiData,
              ?setResultsHeader_set_apiData, ?renderEmpty_set_apiData,
              ?renderRecommendations_set_apiData, ?startSingleClock_set_apiData,
              ?startMultiClock_set_apiData).

(** [handleSearch] reads the document only through [x || []]. *)
Lemma handleSearch_document now st data data' :
  apiData st = Some data ->
  orList (beaches data') = orList (beaches data) ->
  orList (temples data') = orList (temples data) ->
  orList (countries data') = orList (countries data) ->
  handleSearch now (set_apiData (Some data') st)
  = mapOutcome (set_apiData (Some data')) (handleSearch now st).
Proof.
  intros D Eb Et Ec; unfold handleSearch.
  change (searchInput (set_apiData (Some data') st)) with (searchInput st).
  change (apiData (set_apiData (Some data') st)) with (Some data').
  rewrite D, Eb, Et, Ec; cbv zeta.
  repeat match goal with
         | |- context [if ?b then _ else _] => destruct b
         | |- context [match ?x with _ => _ end] => destruct x
         end;
    push_document; reflexivity.
Qed.

(** C8: a loaded document in which [beaches], [temples] or [countries] is
    absent is searched as the document with an empty array in its place:
    the outcome of every search is the same for both.  No step fails on
    the missing field: a search that throws (the clock could not format a
    time zone) throws on the document with empty arrays as well, the
    beaches and temples tiers return normally and show the empty-state
    message for an absent list, and with [countries] absent every search
    returns normally. *)
Theorem absent_fields_default (now : clock) (st : state) (data : Dataset) :
  apiData st = Some data ->
  handleSearch now (set_apiData (Some (withDefaults data)) st)
  = mapOutcome (set_apiData (Some (withDefaults data))) (handleSearch now st)
  /\ (forall e s,
        handleSearch now st = Thrown e s ->
        handleSearch now (set_apiData (Some (withDefaults data)) st)
        = Thrown e (set_apiData (Some (withDefaults data)) s))
  /\ (beaches data = None ->
      normalizeKeyword (searchInput st) = "beach" ->
      exists st', handleSearch now st = Returned st'
                  /\ results st' = [] /\ emptyState st' = Some msgNoRecommendations)
  /\ (temples data = None ->
      normalizeKeyword (searchInput st) = "temple" ->
      exists st', handleSearch now st = Returned st'
                  /\ results st' = [] /\ emptyState st' = Some msgNoRecommendations)
  /\ (countries data = None ->
      exists st', handleSearch now st = Returned st'
                  /\ (normalizeKeyword (searchInput st) = "country" ->
                      results st' = [] /\ emptyState st' = Some msgNoRecommendations)).
Proof.
  intros D.
  assert (W : handleSearch now (set_apiData (Some (withDefaults data)) st)
              = mapOutcome (set_apiData (Some (withDefaults data))) (handleSearch now st))
    by now apply handleSearch_document with (data := data).
  split; [exact W|].
  split; [intros e s T; rewrite W, T; reflexivity|].
  assert (K : forall k, normalizeKeyword (searchInput st) = k -> k <> EmptyString ->
                        Str.isEmpty (Str.trim (searchInput st)) = false
                        /\ normalizeKeyword (Str.trim (searchInput st)) = k).
  { intros k H N; rewrite normalizeKeyword_trim; split; [|exact H].
    apply normalizeKeyword_nonempty; rewrite normalizeKeyword_trim; congruence. }
  split; [|split].
  - intros A H; destruct (K _ H) as (N & Q); [discriminate|].
    eexists; unfold handleSearch; rewrite orString_some, N, D, Q, A.
    cbv zeta; simpl orList; split; [reflexivity | split; reflexivity].
  - intros A H; destruct (K _ H) as (N & Q); [discriminate|].
    eexists; unfold handleSearch; rewrite orString_some, N, D, Q, A.
    cbv zeta; simpl orList; split; [reflexivity | split; reflexivity].
  - intros A. unfold handleSearch; rewrite orString_some, D, A; cbv zeta.
    destruct (Str.isEmpty (Str.trim (searchInput st))) eqn:N.
    { eexists; split; [reflexivity|].
      intros H; destruct (K _ H) as (N' & _); [discriminate | congruence]. }
    rewrite <- (normalizeKeyword_trim (searchInput st)).
    destruct (normalizeKeyword (Str.trim (searchInput st)) =? "beach") eqn:K1.
    { eexists; split; [reflexivity|]. apply String.eqb_eq in K1; rewrite K1; discriminate. }
    destruct (normalizeKeyword (Str.trim (searchInput st)) =? "temple") eqn:K2.
    { eexists; split; [reflexivity|]. apply String.eqb_eq in K2; rewrite K2; discriminate. }
    destruct (normalizeKeyword (Str.trim (searchInput st)) =? "country") eqn:K3.
    { eexists; split; [reflexivity|]. intros _.
      match goal with
      | |- results (setTimeBox None (stopClock ?X)) = _ /\ _ =>
          destruct (rendered_eq (setTimeBox None (stopClock X)) X) as (R1 & R2 & _);
          [now rewrite rendered_setTimeBox, rendered_stopClock|];
          rewrite R1, R2; split; reflexivity
      end. }
    eexists; split; [reflexivity|].
    intros H; rewrite H in K3; discriminate.
Qed.

Lemma absent_fields_default_witness :
  let st := run Sample.loaded [Input "Temples"] in
  let st' := run (run pageLoad [FetchSettled (Some Sample.sparse)]) [Input "countries"] in
  handleSearch Sample.noon (set_apiData (Some (withDefaults Sample.data)) st)
  = mapOutcome (set_apiData (Some (withDefaults Sample.data))) (handleSearch Sample.noon st)
  /\ (exists s, handleSearch Sample.noon st = Returned s
                /\ results s = [] /\ emptyState s = Some msgNoRecommendations)
  /\ (exists s, handleSearch Sample.noon st' = Returned s
                /\ results s = [] /\ emptyState s = Some msgNoRecommendations).
Proof.
  intros st st'.
  destruct (absent_fields_default Sample.noon st Sample.data eq_refl)
    as (A & _ & _ & B & _).
  destruct (absent_fields_default Sample.noon st' Sample.sparse eq_refl)
    as (_ & _ & _ & _ & C).
  split; [exact A|]. split; [exact (B eq_refl eq_refl)|].
  destruct (C eq_refl) as (s & E & H). exists s; split; [exact E | exact (H eq_refl)].
Defined.

(** ** Substrings *)

Lemma prefix_every (p : ascii -> bool) (k s : string) :
  prefix k s = true -> Str.every p s = true -> Str.every p k = true.
Proof.
  revert s; induction k as [|c k IH]; intros s; [reflexivity|].
  destruct s as [|d s]; simpl; [discriminate|].
  destruct (ascii_dec c d) as [->|]; [|discriminate].
  rewrite !andb_true_iff; intros H [H1 H2]; split; [exact H1 | now apply (IH s)].
Qed.

Lemma includes_every (p : ascii -> bool) (s k : string) :
  Str.includes s k = true -> Str.every p s = true -> Str.every p k = true.
Proof.
  induction s as [|d s IH]; simpl.
  - rewrite orb_false_r; intros H _; now apply (prefix_every p k EmptyString).
  - rewrite orb_true_iff, andb_true_iff; intros [H|H] [H1 H2].
    + apply (prefix_every p k (String d s)); [exact H | simpl; now rewrite H1, H2].
    + now apply IH.
Qed.

Lemma includes_empty (s : string) : Str.includes s EmptyString = true.
Proof. destruct s; reflexivity. Qed.

Lemma blank_toLowerCase (s : string) : Str.blank (Str.toLowerCase s) = Str.blank s.
Proof.
  unfold Str.blank; induction s as [|c s IH]; simpl; [reflexivity|].
  now rewrite toLower_whiteSpace, IH.
Qed.

Lemma blank_trim (s : string) : Str.blank s = true -> Str.trim s = EmptyString.
Proof. intros H; apply isEmpty_true; now rewrite trim_blank. Qed.

(** A normalised query that occurs in a blank string is empty. *)
Lemma normalized_in_blank (raw s : string) :
  Str.blank s = true -> Str.includes s (normalizeKeyword raw) = true ->
  normalizeKeyword raw = EmptyString.
Proof.
  intros B I.
  pose proof (includes_every Char.isWhiteSpace _ _ I B) as W.
  destruct (normalizeKeyword_fixed raw) as (_ & _ & T & _).
  destruct (trim_head (normalizeKeyword raw)) as [E|(c & r & E & N)];
    rewrite T in E; [exact E|].
  rewrite E in W; simpl in W; rewrite N in W; discriminate.
Qed.

Lemma flattenAllCities_nonempty (cs : list Country.t) (p : Place.t) :
  In p (flattenAllCities cs) -> cs <> [].
Proof. destruct cs; [intros [] | discriminate]. Qed.

(** When the city tier fires the query is not empty: an empty query occurs
    in the name of the first country. *)
Lemma city_tier_query (data : Dataset) (query : string) (p : Place.t) :
  Tier.applies data query Tier.SubstringCountry = false ->
  In p (flattenAllCities (orList (countries data))) ->
  query <> EmptyString.
Proof.
  intros A H ->. apply flattenAllCities_nonempty in H.
  cbn [Tier.applies] in A.
  destruct (orList (countries data)) as [|c cs]; [now apply H|].
  cbn [existsb] in A; now rewrite includes_empty in A.
Qed.

Lemma fires_city (data : Dataset) (query : string) :
  Tier.fires data query Tier.SubstringCity = true ->
  (query =? "beach") = false /\ (query =? "temple") = false
  /\ (query =? "country") = false
  /\ Tier.applies data query Tier.ExactCountry = false
  /\ Tier.applies data query Tier.SubstringCountry = false.
Proof.
  unfold Tier.fires; cbn [Tier.before Tier.order Tier.eqb forallb].
  change (Tier.applies data query Tier.KeywordBeach) with (query =? "beach").
  change (Tier.applies data query Tier.KeywordTemple) with (query =? "temple").
  change (Tier.applies data query Tier.KeywordCountry) with (query =? "country").
  rewrite !andb_true_iff, !negb_true_iff; tauto.
Qed.

Lemma existsb_find_none {A : Type} (f : A -> bool) (l : list A) :
  existsb f l = false -> find f l = None.
Proof. rewrite existsb_find; now destruct (find f l). Qed.

(** ** A city name that ends in a comma *)

Lemma blank_segment_comma (raw name : string) :
  normalizeKeyword raw <> EmptyString ->
  Str.includes (Str.toLowerCase name) (normalizeKeyword raw) = true ->
  Str.blank (last (Str.split name) EmptyString) = true ->
  Str.hasComma name = true.
Proof.
  intros N I B. destruct (Str.hasComma name) eqn:H; [reflexivity|].
  rewrite (split_noComma name H) in B; simpl in B.
  rewrite <- blank_toLowerCase in B.
  now apply (normalized_in_blank raw _ B) in I.
Qed.

Lemma inferCountry_blank (name : string) :
  Str.hasComma name = true ->
  Str.blank (last (Str.split name) EmptyString) = true ->
  inferCountryFromCityName (Some name) = Some EmptyString.
Proof.
  intros H B. rewrite (inferCountry_comma name H).
  rewrite split_last in B. now rewrite (blank_trim _ B).
Qed.

(** C10: for a city name whose trailing comma-separated segment is empty
    or white space only, as in "Kyoto,", inference returns the empty
    string.  When the city tier fires and the first matched city has such
    a name, the search treats the result as no country: it returns
    normally with the clock stopped and the time box hidden, and shows no
    "time zone not configured" message. *)
Theorem blank_trailing_segment :
  (forall name,
      2 <= length (Str.split name) ->
      Str.blank (last (Str.split name) EmptyString) = true ->
      inferCountryFromCityName (Some name) = Some EmptyString)
  /\ (forall now st data first rest name,
        apiData st = Some data ->
        Str.blank (searchInput st) = false ->
        let raw := Str.trim (searchInput st) in
        let query := normalizeKeyword raw in
        Tier.fires data query Tier.SubstringCity = true ->
        Tier.items (Tier.resultOf data query Tier.SubstringCity) = first :: rest ->
        Place.name first = Some name ->
        Str.blank (last (Str.split name) EmptyString) = true ->
        let shown := renderRecommendations (first :: rest) (Some "City")
                       (setResultsHeader (Some raw) (length (first :: rest))
                          (Some "City Results") st) in
        let st' := stateOf (handleSearch now st) in
        inferCountryFromCityName (Place.name first) = Some EmptyString
        /\ handleSearch now st = Returned (setTimeBox None (stopClock shown))
        /\ timeBox st' = None
        /\ (reachable st -> intervals st' = [] /\ clockIntervalId st' = None)).
Proof.
  split.
  - intros name L B; apply inferCountry_blank; [|exact B].
    pose proof (split_length name) as S.
    destruct (Str.hasComma name); [reflexivity|].
    apply Nat.ltb_lt in S; lia.
  - intros now st data first rest name D B raw query F M Nm T shown st'.
    destruct (fires_city data query F) as (K1 & K2 & K3 & A4 & A5).
    cbn [Tier.resultOf Tier.items] in M.
    assert (Hin : In first (filter (fun p => Str.includes (Tier.cityKey p) query)
                              (flattenAllCities (orList (countries data)))))
      by (rewrite M; now left).
    apply filter_In in Hin; destruct Hin as (Hin & I).
    pose proof (city_tier_query data query first A5 Hin) as Q.
    unfold Tier.cityKey in I; rewrite Nm, orString_some in I.
    pose proof (blank_segment_comma raw name Q I T) as C.
    assert (E : inferCountryFromCityName (Place.name first) = Some EmptyString)
      by (rewrite Nm; now apply inferCountry_blank).
    assert (R : handleSearch now st = Returned (setTimeBox None (stopClock shown))).
    { unfold handleSearch; rewrite orString_some, trim_blank, B, D.
      fold raw; fold query; cbv zeta; rewrite K1, K2, K3.
      cbn [Tier.applies] in A4, A5; unfold Tier.countryKey in A4, A5.
      rewrite (existsb_find_none _ _ A4), (existsb_find_none _ _ A5).
      unfold Tier.cityKey in M; rewrite M, E; reflexivity. }
    split; [exact E|]. split; [exact R|].
    unfold st'; rewrite R; simpl stateOf.
    split; [reflexivity|].
    intros Rch.
    assert (I' : clockInvariant shown)
      by (unfold shown; auto using clockInvariant_reachable with clock).
    pose proof (stopClock_stopped shown I') as S.
    rewrite <- (timers_setTimeBox None) in S.
    apply timers_fields in S; tauto.
Qed.

Lemma blank_trailing_segment_witness :
  let st' := stateOf (handleSearch Sample.noon Sample.salvadorTyped) in
  inferCountryFromCityName (Some "Kyoto,") = Some EmptyString
  /\ inferCountryFromCityName (Place.name Sample.salvador) = Some EmptyString
  /\ timeBox st' = None /\ intervals st' = [] /\ clockIntervalId st' = None.
Proof.
  intros st'.
  destruct blank_trailing_segment as (A & B).
  split; [apply A; [simpl; lia | reflexivity]|].
  destruct (B Sample.noon Sample.salvadorTyped Sample.coast Sample.salvador []
              "Salvador, " eq_refl eq_refl eq_refl eq_refl eq_refl eq_refl)
    as (E & _ & T & I).
  assert (R : reachable Sample.salvadorTyped)
    by (apply reachable_run, reachable_pageLoad).
  destruct (I R) as (I1 & I2).
  exact (conj E (conj T (conj I1 I2))).
Defined.

(** * Further properties of the code *)

(** ** The search box *)

Lemma searchInput_renderEmpty m st : searchInput (renderEmpty m st) = searchInput st.
Proof. reflexivity. Qed.

Lemma searchInput_setResultsHeader q n c st :
  searchInput (setResultsHeader q n c st) = searchInput st.
Proof. unfold setResultsHeader; destruct (falsy q); reflexivity. Qed.

Lemma searchInput_setTimeBox m st : searchInput (setTimeBox m st) = searchInput st.
Proof. unfold setTimeBox; destruct (falsy m); reflexivity. Qed.

Lemma searchInput_appendCards (f : Place.t -> card) l st :
  searchInput (fold_left (fun st item => appendChild (f item) st) l st) = searchInput st.
Proof. revert st; induction l as [|x l IH]; intros st; simpl; [reflexivity | now rewrite IH]. Qed.

Lemma searchInput_renderRecommendations l b st :
  searchInput (renderRecommendations l b st) = searchInput st.
Proof.
  unfold renderRecommendations.
  destruct (length l =? 0)%nat; [reflexivity | now rewrite searchInput_appendCards].
Qed.

Lemma searchInput_stopClock st : searchInput (stopClock st) = searchInput st.
Proof. unfold stopClock; destruct (clockIntervalId st) as [[|n]|]; reflexivity. Qed.

Lemma searchInput_updateSingleClock now n tz st :
  searchInput (stateOf (updateSingleClock now n tz st)) = searchInput st.
Proof.
  unfold updateSingleClock; destruct (toLocaleTimeString now tz); cbn [stateOf];
    [apply searchInput_setTimeBox | reflexivity].
Qed.

Lemma searchInput_updateMultiClock now l st :
  searchInput (stateOf (updateMultiClock now l st)) = searchInput st.
Proof.
  unfold updateMultiClock; destruct (clockLines now l); cbn [stateOf];
    [apply searchInput_setTimeBox | reflexivity].
Qed.

Lemma searchInput_startSingleClock now n tz st :
  searchInput (stateOf (startSingleClock now n tz st)) = searchInput st.
Proof.
  unfold startSingleClock; destruct tz as [z|].
  - pose proof (searchInput_updateSingleClock now n z (stopClock st)) as U.
    destruct (updateSingleClock now n z (stopClock st)) as [st0|e st0];
      cbn [stateOf] in U; (transitivity (searchInput st0);
                           [reflexivity | rewrite U; apply searchInput_stopClock]).
  - cbn [stateOf]; now rewrite searchInput_setTimeBox, searchInput_stopClock.
Qed.

Lemma searchInput_startMultiClock now l st :
  searchInput (stateOf (startMultiClock now l st)) = searchInput st.
Proof.
  unfold startMultiClock; destruct l as [|x l].
  - cbn [stateOf]; now rewrite searchInput_setTimeBox, searchInput_stopClock.
  - pose proof (searchInput_updateMultiClock now (x :: l) (stopClock st)) as U.
    destruct (updateMultiClock now (x :: l) (stopClock st)) as [st0|e st0];
      cbn [stateOf] in U; (transitivity (searchInput st0);
                           [reflexivity | rewrite U; apply searchInput_stopClock]).
Qed.

Ltac frame_input :=
  repeat (progress
            rewrite ?searchInput_startSingleClock, ?searchInput_startMultiClock,
              ?searchInput_renderRecommendations, ?searchInput_setResultsHeader,
              ?searchInput_setTimeBox, ?searchInput_stopClock,
              ?searchInput_renderEmpty).

(** X1: a search never changes what it reads: the text of the search box,
    the loaded document and the state of the fetch are the same after
    [handleSearch] as before, whether it returns or throws. *)
Theorem handleSearch_keeps_inputs (now : clock) (st : state) :
  let st' := stateOf (handleSearch now st) in
  searchInput st' = searchInput st
  /\ apiData st' = apiData st
  /\ fetching st' = fetching st.
Proof.
  intros st'.
  pose proof (loading_handleSearch now st) as L; fold st' in L.
  unfold loading in L; injection L as L1 L2.
  split; [|split; assumption].
  unfold st', handleSearch; cbv zeta.
  repeat match goal with
         | |- context [if ?b then _ else _] => destruct b
         | |- context [match ?x with _ => _ end] => destruct x
         end;
    cbn [stateOf]; frame_input; reflexivity.
Qed.

(** ** Reset and stop *)

(** X2: reset always clears the search box, the cards, the empty-state
    message and the time box and hides the results header, whatever was
    shown; it leaves the document alone, resetting twice is resetting
    once, and in every reachable state it leaves no repeating task. *)
Theorem clearResults_clears (st : state) :
  let st' := clearResults st in
  searchInput st' = EmptyString
  /\ results st' = []
  /\ emptyState st' = None
  /\ resultsHeader st' = mkHeader false "Results" MetaEmpty
  /\ timeBox st' = None
  /\ loading st' = loading st
  /\ clearResults st' = st'
  /\ (reachable st -> intervals st' = [] /\ clockIntervalId st' = None).
Proof.
  intros st'.
  assert (F : searchInput st' = EmptyString /\ results st' = [] /\ emptyState st' = None
              /\ resultsHeader st' = mkHeader false "Results" MetaEmpty
              /\ timeBox st' = None /\ loading st' = loading st
              /\ clearResults st' = st').
  { unfold st', clearResults, stopClock; cbv zeta; simpl.
    destruct (clockIntervalId st) as [[|n]|] eqn:E; simpl; rewrite ?E;
      repeat split; reflexivity. }
  destruct F as (F1 & F2 & F3 & F4 & F5 & F6 & F7).
  repeat (split; [assumption|]).
  intros R. apply clockInvariant_reachable in R.
  assert (I : clockInvariant
                (setResultsHeader None 0 None
                   (set_emptyState None (set_results [] (set_searchInput EmptyString st)))))
    by (apply clockInvariant_setResultsHeader; revert R; now apply clockInvariant_timers).
  pose proof (stopClock_stopped _ I) as S.
  rewrite <- (timers_setTimeBox None) in S.
  apply timers_fields in S; tauto.
Qed.

Lemma clearResults_clears_witness :
  let st' := clearResults Sample.japanShown in
  intervals Sample.japanShown <> [] /\ results Sample.japanShown <> []
  /\ intervals st' = [] /\ clockIntervalId st' = None /\ results st' = [].
Proof.
  intros st'.
  destruct (clearResults_clears Sample.japanShown) as (_ & R & _ & _ & _ & _ & _ & H).
  assert (Rch : reachable Sample.japanShown)
    by (apply reachable_run, reachable_run, reachable_pageLoad).
  destruct (H Rch) as (H1 & H2).
  split; [discriminate|]. split; [discriminate|].
  exact (conj H1 (conj H2 R)).
Defined.

(** X3: stopping the clock is idempotent and touches nothing but the
    clock: the results area, the time box, the search box and the document
    stay as they are; with no clock running it changes nothing, and in
    every reachable state it leaves no repeating task. *)
Theorem stopClock_idempotent (st : state) :
  stopClock (stopClock st) = stopClock st
  /\ rendered (stopClock st) = rendered st
  /\ timeBox (stopClock st) = timeBox st
  /\ searchInput (stopClock st) = searchInput st
  /\ loading (stopClock st) = loading st
  /\ (clockIntervalId st = None -> stopClock st = st)
  /\ (reachable st ->
      intervals (stopClock st) = [] /\ clockIntervalId (stopClock st) = None).
Proof.
  split; [|split; [|split; [|split; [|split; [|split]]]]].
  - unfold stopClock; destruct (clockIntervalId st) as [[|n]|] eqn:E; simpl;
      rewrite ?E; reflexivity.
  - apply rendered_stopClock.
  - unfold stopClock; destruct (clockIntervalId st) as [[|n]|]; reflexivity.
  - apply searchInput_stopClock.
  - apply loading_stopClock.
  - intros E; unfold stopClock; now rewrite E.
  - intros R. apply clockInvariant_reachable, stopClock_stopped, timers_fields in R.
    tauto.
Qed.

Lemma stopClock_idempotent_witness :
  stopClock pageLoad = pageLoad
  /\ clockIntervalId Sample.japanShown = Some 1
  /\ intervals (stopClock Sample.japanShown) = []
  /\ clockIntervalId (stopClock Sample.japanShown) = None.
Proof.
  destruct (stopClock_idempotent pageLoad) as (_ & _ & _ & _ & _ & A & _).
  destruct (stopClock_idempotent Sample.japanShown) as (_ & _ & _ & _ & _ & _ & B).
  assert (R : reachable Sample.japanShown)
    by (apply reachable_run, reachable_run, reachable_pageLoad).
  destruct (B R) as (B1 & B2).
  exact (conj (A eq_refl) (conj eq_refl (conj B1 B2))).
Defined.

(** ** What a search shows *)

Lemma header_shown raw n categoryLabel st :
  Str.isEmpty raw = false ->
  resultsHeader (setResultsHeader (Some raw) n categoryLabel st)
  = mkHeader true ("Showing results for: " ++ Str.dquote ++ raw ++ Str.dquote)
      (MetaFound (if falsy categoryLabel then "Category: (no match)"
                  else "Category: " ++ display categoryLabel) n).
Proof. intros N; unfold setResultsHeader; now rewrite falsy_some, N. Qed.

(** The results area after a search, in terms of the search box and the
    document alone. *)
Lemma handleSearch_shows now st :
  rendered (stateOf (handleSearch now st))
  = if Str.blank (searchInput st)
    then ([], Some msgEmptyQuery, mkHeader false "Results" MetaEmpty)
    else match apiData st with
         | None => ([], Some msgLoading, mkHeader false "Results" MetaEmpty)
         | Some data =>
             let raw := Str.trim (searchInput st) in
             let query := normalizeKeyword raw in
             let tier := Tier.select data query in
             let r := Tier.resultOf data query tier in
             (map (makeCard (Tier.badge r)) (firstn 6 (Tier.items r)),
              Tier.emptyMessage tier r,
              mkHeader true ("Showing results for: " ++ Str.dquote ++ raw ++ Str.dquote)
                (MetaFound (if falsy (Tier.label r) then "Category: (no match)"
                            else "Category: " ++ display (Tier.label r))
                   (length (Tier.items r))))
         end.
Proof.
  destruct (Str.blank (searchInput st)) eqn:B.
  - unfold handleSearch; now rewrite orString_some, trim_blank, B.
  - destruct (apiData st) as [data|] eqn:D.
    + rewrite (handleSearch_rendered now st data D B); cbv zeta.
      rewrite header_shown; [reflexivity|]. now rewrite trim_blank.
    + unfold handleSearch; now rewrite orString_some, trim_blank, B, D.
Qed.

(** X4: what a search shows (cards, empty-state message, header) is
    determined by the text of the search box and the loaded document: it
    does not depend on what the page showed before, on a running clock or
    on the time of day. *)
Theorem handleSearch_replaces (now now' : clock) (st st' : state) :
  apiData st = apiData st' ->
  searchInput st = searchInput st' ->
  rendered (stateOf (handleSearch now st)) = rendered (stateOf (handleSearch now' st')).
Proof. intros D I; rewrite !handleSearch_shows; now rewrite D, I. Qed.

Lemma handleSearch_replaces_witness :
  let st := run Sample.loaded [Input "brazil"] in
  let st' := run Sample.japanShown [Input "brazil"] in
  results st <> results st'
  /\ rendered (stateOf (handleSearch Sample.noon st))
     = rendered (stateOf (handleSearch Scenario.noZones st')).
Proof.
  intros st st'. split; [discriminate|].
  apply (handleSearch_replaces Sample.noon Scenario.noZones st st'); reflexivity.
Defined.

Lemma cards_nil (b : option string) (items : list Place.t) :
  map (makeCard b) (firstn 6 items) = [] <-> items = [].
Proof. destruct items; simpl; split; congruence. Qed.

(** X5: every search ends with either cards or an empty-state message,
    never both and never neither: the cards are absent exactly when a
    message is shown. *)
Theorem handleSearch_cards_or_message (now : clock) (st : state) :
  let st' := stateOf (handleSearch now st) in
  results st' = [] <-> emptyState st' <> None.
Proof.
  intros st'.
  pose proof (handleSearch_shows now st) as H; fold st' in H.
  destruct (Str.blank (searchInput st)).
  { apply rendered_fields in H; destruct H as (-> & -> & _); split; congruence. }
  destruct (apiData st) as [data|].
  2:{ apply rendered_fields in H; destruct H as (-> & -> & _); split; congruence. }
  cbv zeta in H; apply rendered_fields in H; destruct H as (-> & -> & _).
  rewrite cards_nil.
  destruct (Tier.select data (normalizeKeyword (Str.trim (searchInput st))));
    try (cbn [Tier.resultOf Tier.emptyMessage Tier.items]; split; congruence);
    unfold Tier.emptyMessage;
    match goal with |- ?l = [] <-> _ => destruct l end;
    simpl; split; congruence.
Qed.



Lemma fires_noMatch (data : Dataset) (query : string) :
  Tier.fires data query Tier.NoMatch = true ->
  (query =? "beach") = false /\ (query =? "temple") = false
  /\ (query =? "country") = false
  /\ Tier.applies data query Tier.ExactCountry = false
  /\ Tier.applies data query Tier.SubstringCountry = false
  /\ Tier.applies data query Tier.SubstringCity = false.
Proof.
  unfold Tier.fires; cbn [Tier.before Tier.order Tier.eqb forallb].
  change (Tier.applies data query Tier.KeywordBeach) with (query =? "beach").
  change (Tier.applies data query Tier.KeywordTemple) with (query =? "temple").
  change (Tier.applies data query Tier.KeywordCountry) with (query =? "country").
  rewrite !andb_true_iff, !negb_true_iff; tauto.
Qed.

Lemma existsb_filter_nil {A : Type} (f : A -> bool) (l : list A) :
  existsb f l = false -> filter f l = [].
Proof. rewrite existsb_filter; now destruct (filter f l). Qed.

(** X7: when no tier matches, the search returns normally, stops the
    clock and hides the time box, shows no card but the no-match message,
    and the header reports the category "(no match)" with zero matches. *)
Theorem no_match_outcome (now : clock) (st : state) (data : Dataset) :
  apiData st = Some data ->
  Str.blank (searchInput st) = false ->
  let raw := Str.trim (searchInput st) in
  Tier.fires data (normalizeKeyword raw) Tier.NoMatch = true ->
  let st' := renderEmpty msgNoMatch
               (setResultsHeader (Some raw) 0 None (setTimeBox None (stopClock st))) in
  handleSearch now st = Returned st'
  /\ results st' = []
  /\ emptyState st' = Some msgNoMatch
  /\ resultsHeader st'
     = mkHeader true ("Showing results for: " ++ Str.dquote ++ raw ++ Str.dquote)
         (MetaFound "Category: (no match)" 0)
  /\ timeBox st' = None
  /\ (reachable st -> intervals st' = [] /\ clockIntervalId st' = None).
Proof.
  intros D B raw F st'.
  destruct (fires_noMatch data _ F) as (K1 & K2 & K3 & A4 & A5 & A6).
  assert (N : Str.isEmpty raw = false) by (unfold raw; now rewrite trim_blank).
  split; [|split; [|split; [|split; [|split]]]]; try reflexivity.
  - unfold handleSearch; rewrite orString_some; fold raw; rewrite N, D; cbv zeta.
    rewrite K1, K2, K3.
    cbn [Tier.applies] in A4, A5, A6; unfold Tier.countryKey, Tier.cityKey in A4, A5, A6.
    now rewrite (existsb_find_none _ _ A4), (existsb_find_none _ _ A5),
      (existsb_filter_nil _ _ A6).
  - unfold st'; cbn [renderEmpty resultsHeader set_emptyState set_results].
    now rewrite header_shown.
  - unfold st', setResultsHeader; destruct (falsy (Some raw)); reflexivity.
  - intros R.
    pose proof (stopClock_stopped st (clockInvariant_reachable st R)) as S.
    assert (T : timers st' = timers (stopClock st)) by (unfold st'; now frame).
    rewrite S in T; apply timers_fields in T; tauto.
Qed.

Lemma no_match_outcome_witness :
  let st := run Sample.japanShown [Input "Atlantis"] in
  let st' := stateOf (handleSearch Sample.noon st) in
  emptyState st' = Some msgNoMatch /\ results st' = [] /\ intervals st' = []
  /\ timeBox st' = None.
Proof.
  intros st st'.
  destruct (no_match_outcome Sample.noon st Sample.data eq_refl eq_refl eq_refl)
    as (E & H1 & H2 & _ & H4 & H5).
  assert (R : reachable st)
    by (apply reachable_run, reachable_run, reachable_run, reachable_pageLoad).
  unfold st'; rewrite E; simpl stateOf.
  exact (conj H2 (conj H1 (conj (proj1 (H5 R)) H4))).
Defined.

(** ** The document after the fetch *)

Lemma settled_forever st st' :
  fetching st = false -> reachableFrom st st' -> loading st' = loading st.
Proof.
  intros F; induction 1 as [|st' ev _ IH]; [reflexivity|].
  destruct (loading_step st' ev) as [L|(response & -> & F')]; [congruence|].
  unfold loading in IH; injection IH as _ IH; congruence.
Qed.

(** X8: the document is loaded once and never changes: from a reachable
    state in which it is loaded, every later state holds the same
    document, and no later search shows the "still loading" message. *)
Theorem document_immutable (st st' : state) (data : Dataset) :
  reachable st ->
  apiData st = Some data ->
  reachableFrom st st' ->
  apiData st' = Some data
  /\ forall now, emptyState (step st' (ClickSearch now)) <> Some msgLoading.
Proof.
  intros R D RF.
  assert (F : fetching st = false).
  { destruct (fetching st) eqn:F; [|reflexivity].
    rewrite (reachable_fetching st R F) in D; discriminate. }
  pose proof (settled_forever st st' F RF) as L.
  unfold loading in L; injection L as L1 _. rewrite D in L1.
  split; [exact L1|].
  intros now; simpl.
  pose proof (handleSearch_shows now st') as H.
  rewrite L1 in H.
  destruct (Str.blank (searchInput st'));
    apply rendered_fields in H; destruct H as (_ & -> & _); [discriminate|].
  cbv zeta; unfold Tier.emptyMessage.
  destruct (Tier.select data _); try discriminate;
    match goal with |- context [if ?b then _ else _] => destruct b end; discriminate.
Qed.

Lemma document_immutable_witness :
  let later := run Sample.loaded [Input "beach"; ClickSearch Sample.noon; ClickReset;
                                  FetchSettled None; ClickLink "about"] in
  apiData later = Some Sample.data
  /\ emptyState (step later (ClickSearch Sample.noon)) <> Some msgLoading.
Proof.
  intros later.
  assert (R : reachable Sample.loaded) by (apply reachable_run, reachable_pageLoad).
  destruct (document_immutable Sample.loaded later Sample.data R eq_refl
              (reachableFrom_run _ _)) as (A & B).
  exact (conj A (B Sample.noon)).
Defined.

(** ** The shape of a normalised query *)






Lemma toLowerCase_twice (s : string) :
  Str.toLowerCase (Str.toLowerCase s) = Str.toLowerCase s.
Proof. apply toLowerCase_fixed, toLowerCase_lower. Qed.




(** X11: two searches on the same document whose inputs have the same
    normalised query show the same cards, the same empty-state message
    and the same category and count in the header: the search is
    insensitive to case, punctuation and surrounding white space. *)
Theorem search_by_normal_form (now now' : clock) (st st' : state) (data : Dataset) :
  apiData st = Some data -> apiData st' = Some data ->
  Str.blank (searchInput st) = false -> Str.blank (searchInput st') = false ->
  normalizeKeyword (searchInput st) = normalizeKeyword (searchInput st') ->
  let a := stateOf (handleSearch now st) in
  let b := stateOf (handleSearch now' st') in
  results a = results b /\ emptyState a = emptyState b
  /\ headerMeta (resultsHeader a) = headerMeta (resultsHeader b).
Proof.
  intros D D' B B' N a b.
  pose proof (handleSearch_shows now st) as H; fold a in H.
  pose proof (handleSearch_shows now' st') as H'; fold b in H'.
  rewrite B, D in H; rewrite B', D' in H'; cbv zeta in H, H'.
  rewrite normalizeKeyword_trim in H, H'. rewrite <- N in H'.
  apply rendered_fields in H, H'.
  destruct H as (R & E & Hd); destruct H' as (R' & E' & Hd').
  rewrite R, R', E, E', Hd, Hd'; repeat split.
Qed.

Lemma search_by_normal_form_witness :
  let st := run Sample.loaded [Input "JAPAN!!"] in
  let st' := run Sample.japanShown [Input "  japan"] in
  results (stateOf (handleSearch Sample.noon st))
  = results (stateOf (handleSearch Scenario.noZones st'))
  /\ results (stateOf (handleSearch Sample.noon st)) <> [].
Proof.
  intros st st'.
  destruct (search_by_normal_form Sample.noon Scenario.noZones st st' Sample.data
              eq_refl eq_refl eq_refl eq_refl eq_refl) as (R & _).
  split; [exact R | discriminate].
Defined.

(** ** The substring tier for country names *)

Lemma find_none {A : Type} (f : A -> bool) (l : list A) :
  (forall x, In x l -> f x = false) -> find f l = None.
Proof.
  induction l as [|x l IH]; intros H; simpl; [reflexivity|].
  rewrite (H x) by now left. apply IH; intros y Hy; apply H; now right.
Qed.

(** The branch [handleSearch] takes when the first country whose name
    contains the query is [c] and no country name equals it. *)
Lemma substring_country_search now st data pre c post :
  apiData st = Some data ->
  Str.blank (searchInput st) = false ->
  let raw := Str.trim (searchInput st) in
  let query := normalizeKeyword raw in
  query <> "beach" -> query <> "temple" -> query <> "country" ->
  orList (countries data) = (pre ++ c :: post)%list ->
  (forall b, In b (pre ++ c :: post)%list -> Tier.countryKey b <> query) ->
  Str.includes (Tier.countryKey c) query = true ->
  (forall b, In b pre -> Str.includes (Tier.countryKey b) query = false) ->
  let cities := orList (Country.cities c) in
  let shown := renderRecommendations cities (Country.name c)
                 (setResultsHeader (Some raw) (length cities)
                    (Some (display (Country.name c) ++ " (Cities)")) st) in
  Tier.fires data query Tier.SubstringCountry = true
  /\ handleSearch now st
     = startSingleClock now (Country.name c) (getTimeZoneForCountry (Country.name c)) shown
  /\ results (stateOf (handleSearch now st))
     = map (makeCard (Country.name c)) (firstn 6 cities).
Proof.
  intros D B raw query K1 K2 K3 C NE I NI cities shown.
  assert (F1 : find (fun b => Tier.countryKey b =? query) (orList (countries data)) = None).
  { rewrite C; apply find_none; intros b Hb; apply String.eqb_neq; now apply NE. }
  assert (F2 : find (fun b => Str.includes (Tier.countryKey b) query)
                 (orList (countries data)) = Some c)
    by (rewrite C; now apply find_first).
  destruct (applies_keyword data query K1 K2 K3) as (A1 & A2 & A3).
  assert (E : handleSearch now st
              = startSingleClock now (Country.name c)
                  (getTimeZoneForCountry (Country.name c)) shown).
  { unfold handleSearch; rewrite orString_some, trim_blank, B, D.
    fold raw; fold query; cbv zeta.
    apply String.eqb_neq in K1, K2, K3; rewrite K1, K2, K3.
    unfold Tier.countryKey in F1, F2; now rewrite F1, F2. }
  split; [|split; [exact E|]].
  - unfold Tier.fires; cbn [Tier.before Tier.order Tier.eqb forallb].
    rewrite A1, A2, A3.
    cbn [Tier.applies]; rewrite !existsb_find, F1, F2; reflexivity.
  - rewrite E.
    destruct (rendered_eq _ _ (rendered_startSingleClock now (Country.name c)
                                 (getTimeZoneForCountry (Country.name c)) shown))
      as (R & _).
    rewrite R; unfold shown.
    now destruct (rendered_fields _ _ _ _
                    (rendered_renderRecommendations cities (Country.name c)
                       (setResultsHeader (Some raw) (length cities)
                          (Some (display (Country.name c) ++ " (Cities)")) st))).
Qed.

(** X12: a query that is no keyword and equals no country name, but is
    contained in one, shows the cities of the first country in dataset
    order whose name contains it, and starts the clock for that country;
    city names that contain the query as well are not looked at. *)
Theorem substring_country_first (now : clock) (st : state) (data : Dataset)
    (pre : list Country.t) (c : Country.t) (post : list Country.t) :
  apiData st = Some data ->
  Str.blank (searchInput st) = false ->
  let raw := Str.trim (searchInput st) in
  let query := normalizeKeyword raw in
  query <> "beach" -> query <> "temple" -> query <> "country" ->
  orList (countries data) = (pre ++ c :: post)%list ->
  (forall b, In b (pre ++ c :: post)%list -> Tier.countryKey b <> query) ->
  Str.includes (Tier.countryKey c) query = true ->
  (forall b, In b pre -> Str.includes (Tier.countryKey b) query = false) ->
  let cities := orList (Country.cities c) in
  let shown := renderRecommendations cities (Country.name c)
                 (setResultsHeader (Some raw) (length cities)
                    (Some (display (Country.name c) ++ " (Cities)")) st) in
  Tier.fires data query Tier.SubstringCountry = true
  /\ handleSearch now st
     = startSingleClock now (Country.name c) (getTimeZoneForCountry (Country.name c)) shown
  /\ results (stateOf (handleSearch now st))
     = map (makeCard (Country.name c)) (firstn 6 cities)
  /\ emptyState (stateOf (handleSearch now st))
     = (if (length cities =? 0)%nat then Some msgNoRecommendations else None)
  /\ headerMeta (resultsHeader (stateOf (handleSearch now st)))
     = MetaFound ("Category: " ++ display (Country.name c) ++ " (Cities)") (length cities).
Proof.
  intros D B raw query K1 K2 K3 C NE I NI cities shown.
  destruct (substring_country_search now st data pre c post D B K1 K2 K3 C NE I NI)
    as (F & E & R).
  fold raw in E; fold cities in E, R; fold shown in E.
  split; [exact F|]. split; [exact E|]. split; [exact R|].
  rewrite E.
  destruct (rendered_eq _ _ (rendered_startSingleClock now (Country.name c)
                               (getTimeZoneForCountry (Country.name c)) shown))
    as (_ & Em & Hd).
  rewrite Em, Hd; unfold shown.
  destruct (rendered_fields _ _ _ _
              (rendered_renderRecommendations cities (Country.name c)
                 (setResultsHeader (Some raw) (length cities)
                    (Some (display (Country.name c) ++ " (Cities)")) st)))
    as (_ & Em' & Hd').
  split; [exact Em'|].
  rewrite Hd', header_shown by (unfold raw; now rewrite trim_blank).
  cbn [headerMeta].
  now destruct (display (Country.name c)).
Qed.

Lemma substring_country_first_witness :
  let st' := run Scenario.atlasLoaded [Input "a"] in
  results (stateOf (handleSearch Sample.noon st'))
  = map (makeCard (Some "Japan")) [Sample.kyoto; Sample.tokyo]
  /\ Tier.fires Scenario.atlas "a" Tier.SubstringCountry = true.
Proof.
  intros st'.
  destruct (substring_country_first Sample.noon st' Scenario.atlas [] Sample.japan
              [Scenario.portugal; Scenario.noCities; Sample.brazil]
              eq_refl eq_refl) as (F & _ & R & _); try discriminate; try reflexivity.
  - intros b [<-|[<-|[<-|[<-|[]]]]]; discriminate.
  - intros b [].
  - exact (conj R F).
Defined.

(** X13: a query of punctuation only (it is not blank, but its normal
    form is empty) is contained in every name: when no country has an
    empty name it shows the cities of the first country of the document,
    and when the document has no country it shows the no-match message. *)
Theorem punctuation_only_query (now : clock) (st : state) (data : Dataset) :
  apiData st = Some data ->
  Str.blank (searchInput st) = false ->
  normalizeKeyword (searchInput st) = EmptyString ->
  let st' := stateOf (handleSearch now st) in
  (forall c cs,
      orList (countries data) = c :: cs ->
      (forall b, In b (c :: cs) -> Tier.countryKey b <> EmptyString) ->
      results st' = map (makeCard (Country.name c)) (firstn 6 (orList (Country.cities c))))
  /\ (orList (countries data) = [] -> results st' = [] /\ emptyState st' = Some msgNoMatch).
Proof.
  intros D B N st'. rewrite <- normalizeKeyword_trim in N. split.
  - intros c cs C NE.
    destruct (substring_country_search now st data [] c cs D B) as (_ & _ & R);
      rewrite ?N; try discriminate; trivial.
    + apply includes_empty.
    + intros b [].
  - intros C.
    pose proof (handleSearch_shows now st) as H; fold st' in H.
    rewrite B, D in H; cbv zeta in H; rewrite N, select_cascade, C in H.
    apply rendered_fields in H; destruct H as (R & E & _).
    split; [exact R | exact E].
Qed.

Lemma punctuation_only_query_witness :
  let st := run (run pageLoad [FetchSettled (Some Sample.coast)]) [Input "?!"] in
  let st0 := run (run pageLoad [FetchSettled (Some Sample.sparse)]) [Input "?!"] in
  results (stateOf (handleSearch Sample.noon st))
  = map (makeCard (Some "Brazil")) [Sample.rio; Sample.salvador]
  /\ emptyState (stateOf (handleSearch Sample.noon st0)) = Some msgNoMatch.
Proof.
  intros st st0.
  destruct (punctuation_only_query Sample.noon st Sample.coast eq_refl eq_refl eq_refl)
    as (A & _).
  destruct (punctuation_only_query Sample.noon st0 Sample.sparse eq_refl eq_refl eq_refl)
    as (_ & B).
  split; [|exact (proj2 (B eq_refl))].
  apply (A _ _ eq_refl). intros b [<-|[]]; discriminate.
Defined.

(** ** Time zones *)

Lemma lower_key (s : string) :
  let key := Str.trim (Str.toLowerCase s) in Str.toLowerCase key = key.
Proof. intros key; unfold key; now rewrite toLowerCase_trim, toLowerCase_twice. Qed.

Lemma eqb_not_lower (key name : string) :
  Str.toLowerCase key = key -> Str.toLowerCase name <> name -> (key =? name) = false.
Proof. intros K N; apply String.eqb_neq; congruence. Qed.

(** X14: the time zone lookup ignores letter case and surrounding white
    space of the country name and knows exactly three countries.  A name
    whose key is "constructor" or "__proto__" yields a member of
    [Object.prototype] instead of a zone; every other name, an absent or
    empty one included, yields no time zone. *)
Theorem getTimeZoneForCountry_table (countryName : option string) :
  let key := Str.trim (Str.toLowerCase (orString countryName EmptyString)) in
  getTimeZoneForCountry countryName
  = (if key =? "australia" then Some (Zone "Australia/Sydney")
     else if key =? "japan" then Some (Zone "Asia/Tokyo")
     else if key =? "brazil" then Some (Zone "America/Sao_Paulo")
     else if (key =? "constructor") || (key =? "__proto__") then Some (Inherited key)
     else None)
  /\ getTimeZoneForCountry (Some key) = getTimeZoneForCountry countryName
  /\ getTimeZoneForCountry None = None
  /\ getTimeZoneForCountry (Some EmptyString) = None.
Proof.
  intros key.
  pose proof (lower_key (orString countryName EmptyString)) as L; fold key in L.
  split; [|split; [|split; reflexivity]].
  - unfold getTimeZoneForCountry; fold key.
    unfold getProperty, zoneMap, objectPrototype; cbn [ownProperty existsb].
    rewrite (String.eqb_sym "australia"), (String.eqb_sym "japan"),
      (String.eqb_sym "brazil").
    destruct (key =? "australia"); [reflexivity|].
    destruct (key =? "japan"); [reflexivity|].
    destruct (key =? "brazil"); [reflexivity|].
    assert (U : forall name, Str.toLowerCase name <> name -> (key =? name) = false)
      by (intros name; now apply eqb_not_lower).
    rewrite (U "__defineGetter__"),
      (U "__defineSetter__"),
      (U "hasOwnProperty"),
      (U "__lookupGetter__"),
      (U "__lookupSetter__"),
      (U "isPrototypeOf"),
      (U "propertyIsEnumerable"),
      (U "toString"),
      (U "valueOf"),
      (U "toLocaleString")
      by (vm_compute; discriminate).
    rewrite !orb_false_r.
    destruct (key =? "constructor"); [reflexivity|].
    now destruct (key =? "__proto__").
  - assert (T : Str.trim key = key) by apply trim_idempotent.
    cbv zeta in L.
    unfold getTimeZoneForCountry; rewrite orString_some; fold key.
    now rewrite L, T.
Qed.

Lemma unique_in (x : string) (l : list string) : In x (unique l) <-> In x l.
Proof.
  induction l as [|y l IH]; simpl; [tauto|].
  rewrite filter_In, IH, negb_true_iff, String.eqb_neq.
  destruct (string_dec y x) as [->|N]; [tauto|]. split.
  - intros [H|[H _]]; auto.
  - intros [H|H]; [now left | right; split; congruence].
Qed.

Lemma unique_nodup (l : list string) : NoDup (unique l).
Proof.
  induction l as [|y l IH]; simpl; constructor.
  - rewrite filter_In, negb_true_iff, String.eqb_neq; tauto.
  - now apply NoDup_filter.
Qed.

Lemma zones_in (names : list string) (label : string) (tz : tzValue) :
  In (label, tz)
     (flat_map (fun name => match getTimeZoneForCountry (Some name) with
                            | Some tz => [(name, tz)]
                            | None => []
                            end) names)
  <-> In label names /\ getTimeZoneForCountry (Some label) = Some tz.
Proof.
  rewrite in_flat_map; split.
  - intros (name & Hn & H).
    destruct (getTimeZoneForCountry (Some name)) eqn:E; [|contradiction].
    destruct H as [H|[]]; inversion H; subst; auto.
  - intros (Hn & E); exists label; split; [exact Hn|]. rewrite E; now left.
Qed.

Lemma zones_nodup (names : list string) :
  NoDup names ->
  NoDup (map fst
           (flat_map (fun name => match getTimeZoneForCountry (Some name) with
                                  | Some tz => [(name, tz)]
                                  | None => []
                                  end) names)).
Proof.
  induction 1 as [|x l Hx _ IH]; simpl; [constructor|].
  rewrite map_app.
  destruct (getTimeZoneForCountry (Some x)); simpl; [|exact IH].
  constructor; [|exact IH].
  rewrite in_map_iff; intros ((label & tz) & E & H); simpl in E; subst.
  apply zones_in in H; tauto.
Qed.

(** X15: the list for the multi-clock holds one pair per distinct country
    name: the labels are pairwise different, and a pair (label, zone) is
    in the list exactly when the label is the trimmed, non-empty name of
    some country and the lookup yields that zone for it.  Countries
    without a configured zone, without a name or with a blank name
    contribute nothing. *)
Theorem getTimeZonesForCountries_pairs (countryNames : list (option string)) :
  let tzList := getTimeZonesForCountries countryNames in
  NoDup (map fst tzList)
  /\ forall label timeZone,
      In (label, timeZone) tzList
      <-> (label <> EmptyString
           /\ (exists n, In n countryNames /\ Str.trim (orString n EmptyString) = label)
           /\ getTimeZoneForCountry (Some label) = Some timeZone).
Proof.
  intros tzList; unfold tzList, getTimeZonesForCountries; cbv zeta. split.
  - apply zones_nodup, unique_nodup.
  - intros label tz.
    rewrite zones_in, unique_in, filter_In, in_map_iff, negb_true_iff.
    split.
    + intros (((n & E & Hn) & N) & Z). repeat split; eauto.
      intros ->; discriminate.
    + intros (N & (n & Hn & E) & Z). repeat split; eauto.
      destruct label; [now elim N | reflexivity].
Qed.

(** ** Flattening *)

(** X16: the flattened list holds exactly the cities of the countries, in
    dataset order: a place is in it exactly when it is a city of some
    country, its length is the sum of the countries' city counts,
    flattening distributes over concatenation, and countries without a
    [cities] array contribute nothing. *)
Theorem flattenAllCities_cities :
  (forall cs p,
      In p (flattenAllCities cs)
      <-> exists c, In c cs /\ In p (orList (Country.cities c)))
  /\ (forall a b,
        flattenAllCities (a ++ b) = (flattenAllCities a ++ flattenAllCities b)%list)
  /\ (forall cs,
        length (flattenAllCities cs)
        = list_sum (map (fun c => length (orList (Country.cities c))) cs))
  /\ (forall cs,
        forallb (fun c => match Country.cities c with None => true | Some _ => false end) cs
        = true ->
        flattenAllCities cs = []).
Proof.
  split; [|split; [|split]].
  - intros cs p; apply in_flat_map.
  - intros a b; apply flat_map_app.
  - induction cs as [|c cs IH]; simpl; [reflexivity|].
    now rewrite length_app, IH.
  - induction cs as [|c cs IH]; simpl; [reflexivity|].
    rewrite andb_true_iff; intros [H1 H2].
    destruct (Country.cities c); [discriminate|]. now apply IH.
Qed.

Lemma flattenAllCities_cities_witness :
  flattenAllCities [Sample.japanAlps; Scenario.noCities] = []
  /\ length (flattenAllCities [Sample.japan; Sample.japanAlps; Sample.brazil]) = 3.
Proof.
  destruct flattenAllCities_cities as (_ & _ & L & N).
  split; [apply N; reflexivity | rewrite L; reflexivity].
Defined.

(** ** What the clock displays *)

Lemma timeBox_stopClock st : timeBox (stopClock st) = timeBox st.
Proof. unfold stopClock; destruct (clockIntervalId st) as [[|n]|]; reflexivity. Qed.

Lemma startSingleClock_outcome (now : clock) (countryName : option string)
    (timeZone : option tzValue) (st : state) :
  rendered (stateOf (startSingleClock now countryName timeZone st)) = rendered st
  /\ match timeZone with
     | None =>
         exists st', startSingleClock now countryName timeZone st = Returned st'
                     /\ timeBox st'
                        = Some ("Current time: (time zone not configured for "
                                ++ display countryName ++ ")")
     | Some z =>
         match toLocaleTimeString now z with
         | Some t =>
             exists st', startSingleClock now countryName timeZone st = Returned st'
                         /\ timeBox st'
                            = Some ("Current time in " ++ display countryName ++ ": " ++ t)
         | None =>
             startSingleClock now countryName timeZone st = Thrown RangeError (stopClock st)
             /\ timeBox (stopClock st) = timeBox st
         end
     end.
Proof.
  split; [apply rendered_startSingleClock|].
  unfold startSingleClock, updateSingleClock; cbv zeta.
  destruct timeZone as [z|]; [destruct (toLocaleTimeString now z) as [t|]|].
  - eexists; split; reflexivity.
  - split; [reflexivity | apply timeBox_stopClock].
  - eexists; split; reflexivity.
Qed.

(** X17: starting the single clock has three outcomes.  Without a time
    zone it returns with the text "time zone not configured for" the
    country in the time box.  With a zone the platform can format it
    returns with the current time of the country in the time box.  With a
    value the platform cannot format it throws a [RangeError] after having
    stopped the clock, and the time box keeps its old text.  The results
    area, the search box and the document are the same in all three. *)
Theorem startSingleClock_display (now : clock) (countryName : option string)
    (timeZone : option tzValue) (st : state) :
  rendered (stateOf (startSingleClock now countryName timeZone st)) = rendered st
  /\ searchInput (stateOf (startSingleClock now countryName timeZone st)) = searchInput st
  /\ loading (stateOf (startSingleClock now countryName timeZone st)) = loading st
  /\ match timeZone with
     | None =>
         exists st', startSingleClock now countryName timeZone st = Returned st'
                     /\ timeBox st'
                        = Some ("Current time: (time zone not configured for "
                                ++ display countryName ++ ")")
     | Some z =>
         match toLocaleTimeString now z with
         | Some t =>
             exists st', startSingleClock now countryName timeZone st = Returned st'
                         /\ timeBox st'
                            = Some ("Current time in " ++ display countryName ++ ": " ++ t)
         | None =>
             startSingleClock now countryName timeZone st = Thrown RangeError (stopClock st)
             /\ timeBox (stopClock st) = timeBox st
         end
     end.
Proof.
  split; [apply rendered_startSingleClock|].
  split; [apply searchInput_startSingleClock|].
  split; [apply loading_startSingleClock|].
  apply startSingleClock_outcome.
Qed.

(** X18: a tick of a repeating task redraws the time box and nothing else:
    the tasks, the results area, the search box and the document are
    unchanged.  A tick of the single clock whose zone can be formatted
    shows the current time of its country; a tick for a handle that is
    not in the table changes nothing at all. *)
Theorem tick_redraws (id : nat) (now : clock) (st : state) :
  let st' := step st (Tick id now) in
  timers st' = timers st
  /\ rendered st' = rendered st
  /\ searchInput st' = searchInput st
  /\ loading st' = loading st
  /\ (lookupInterval id (intervals st) = None -> st' = st)
  /\ (forall countryName z t,
        lookupInterval id (intervals st) = Some (UpdateSingle countryName z) ->
        toLocaleTimeString now z = Some t ->
        timeBox st' = Some ("Current time in " ++ display countryName ++ ": " ++ t)).
Proof.
  intros st'; unfold st'; simpl.
  destruct (lookupInterval id (intervals st)) as [[n z|l]|] eqn:E.
  - simpl runCallback.
    repeat split; try discriminate.
    + apply timers_updateSingleClock.
    + unfold updateSingleClock; destruct (toLocaleTimeString now z); simpl stateOf;
        [apply rendered_setTimeBox | reflexivity].
    + apply searchInput_updateSingleClock.
    + apply loading_updateSingleClock.
    + intros n' z' t H T; inversion H; subst.
      unfold updateSingleClock; rewrite T; reflexivity.
  - simpl runCallback.
    repeat split; try discriminate.
    + apply timers_updateMultiClock.
    + unfold updateMultiClock; destruct (clockLines now l); simpl stateOf;
        [apply rendered_setTimeBox | reflexivity].
    + apply searchInput_updateMultiClock.
    + apply loading_updateMultiClock.
  - repeat split; discriminate.
Qed.

Lemma tick_redraws_witness :
  let st' := step Sample.japanShown (Tick 1 (fun _ => Some "9:41:07 AM")) in
  timeBox Sample.japanShown = Some "Current time in Japan: 12:00:00 PM"
  /\ timeBox st' = Some "Current time in Japan: 9:41:07 AM"
  /\ step Sample.japanShown (Tick 7 Sample.noon) = Sample.japanShown.
Proof.
  intros st'.
  destruct (tick_redraws 1 (fun _ => Some "9:41:07 AM") Sample.japanShown)
    as (_ & _ & _ & _ & _ & A).
  destruct (tick_redraws 7 Sample.noon Sample.japanShown) as (_ & _ & _ & _ & B & _).
  split; [reflexivity|]. split; [|exact (B eq_refl)].
  exact (A (Some "Japan") (Zone "Asia/Tokyo") "9:41:07 AM" eq_refl eq_refl).
Defined.

Lemma clockLines_lines now tzList lines :
  clockLines now tzList = Some lines ->
  Forall2 (fun pair line =>
             exists t, toLocaleTimeString now (snd pair) = Some t
                       /\ line = fst pair ++ ": " ++ t) tzList lines.
Proof.
  revert lines; induction tzList as [|[label tz] l IH]; intros lines; simpl.
  - intros E; inversion E; constructor.
  - destruct (toLocaleTimeString now tz) as [t|] eqn:T; [|discriminate].
    destruct (clockLines now l) as [rest|]; [|discriminate].
    intros E; inversion E; subst. constructor; [exists t; auto | now apply IH].
Qed.

Lemma startMultiClock_outcome (now : clock) (tzList : list (string * tzValue))
    (st : state) :
  match tzList with
  | [] => startMultiClock now tzList st = Returned (setTimeBox None (stopClock st))
          /\ timeBox (setTimeBox None (stopClock st)) = None
  | _ :: _ =>
      match clockLines now tzList with
      | Some lines =>
          length lines = length tzList
          /\ Forall2 (fun pair line =>
                        exists t, toLocaleTimeString now (snd pair) = Some t
                                  /\ line = fst pair ++ ": " ++ t) tzList lines
          /\ exists st', startMultiClock now tzList st = Returned st'
                         /\ timeBox st'
                            = Some ("Current times:" ++ Str.newline
                                    ++ Str.join Str.newline lines)
      | None =>
          startMultiClock now tzList st = Thrown RangeError (stopClock st)
          /\ (exists label timeZone,
                 In (label, timeZone) tzList /\ toLocaleTimeString now timeZone = None)
      end
  end.
Proof.
  destruct tzList as [|x l]; [split; reflexivity|].
  destruct (clockLines now (x :: l)) as [lines|] eqn:E.
  - pose proof (clockLines_lines now _ _ E) as F.
    split; [symmetry; exact (Forall2_length F)|]. split; [exact F|].
    unfold startMultiClock, updateMultiClock; rewrite E.
    eexists; split; reflexivity.
  - split; [unfold startMultiClock, updateMultiClock; now rewrite E|].
    clear st. revert E; generalize (x :: l); intros tz.
    induction tz as [|[label z] tz IH]; simpl; [discriminate|].
    destruct (toLocaleTimeString now z) eqn:T; [|intros _; exists label, z; auto].
    destruct (clockLines now tz); [discriminate|].
    intros _; destruct (IH eq_refl) as (a & b & H1 & H2); exists a, b; auto.
Qed.

(** X19: the multi-clock shows one line per pair, in the order of the
    list, each the label, a colon and the current time of the pair's
    zone, under the heading "Current times:"; an empty list hides the time
    box, and a pair that cannot be formatted makes the start throw once
    the clock has been stopped.  The results area, the search box and the
    document are unchanged. *)
Theorem startMultiClock_display (now : clock) (tzList : list (string * tzValue))
    (st : state) :
  rendered (stateOf (startMultiClock now tzList st)) = rendered st
  /\ searchInput (stateOf (startMultiClock now tzList st)) = searchInput st
  /\ loading (stateOf (startMultiClock now tzList st)) = loading st
  /\ match tzList with
  | [] => startMultiClock now tzList st = Returned (setTimeBox None (stopClock st))
          /\ timeBox (setTimeBox None (stopClock st)) = None
  | _ :: _ =>
      match clockLines now tzList with
      | Some lines =>
          length lines = length tzList
          /\ Forall2 (fun pair line =>
                        exists t, toLocaleTimeString now (snd pair) = Some t
                                  /\ line = fst pair ++ ": " ++ t) tzList lines
          /\ exists st', startMultiClock now tzList st = Returned st'
                         /\ timeBox st'
                            = Some ("Current times:" ++ Str.newline
                                    ++ Str.join Str.newline lines)
      | None =>
          startMultiClock now tzList st = Thrown RangeError (stopClock st)
          /\ (exists label timeZone,
                 In (label, timeZone) tzList /\ toLocaleTimeString now timeZone = None)
      end
  end.
Proof.
  split; [apply rendered_startMultiClock|].
  split; [apply searchInput_startMultiClock|].
  split; [apply loading_startMultiClock|].
  apply startMultiClock_outcome.
Qed.

(** ** Inference from a display name *)

Lemma hasComma_app (a b : string) :
  Str.hasComma (a ++ b) = Str.hasComma a || Str.hasComma b.
Proof. induction a as [|c a IH]; simpl; [reflexivity | now rewrite IH, orb_assoc]. Qed.

Lemma lastSegment_app (a b : string) :
  Str.hasComma b = true -> Str.lastSegment (a ++ b) = Str.lastSegment b.
Proof.
  intros H; induction a as [|c a IH]; [reflexivity|].
  change (String c a ++ b) with (String c (a ++ b)).
  simpl; now rewrite hasComma_app, H, !orb_true_r.
Qed.

Lemma hasComma_lastSegment (s : string) : Str.hasComma (Str.lastSegment s) = false.
Proof.
  induction s as [|c s IH]; [reflexivity|].
  simpl Str.lastSegment.
  destruct (Char.isComma c || Str.hasComma s) eqn:E; [exact IH | exact E].
Qed.

(** X20: for a display name "city,country" whose country part holds no
    comma, inference returns the country part trimmed, whatever the city
    part holds.  Whatever the name, an inferred country has no comma and no
    white space at either end; a name with commas in the country is split
    at the last one. *)
Theorem inferCountry_roundtrip :
  (forall city country,
      Str.hasComma country = false ->
      inferCountryFromCityName (Some (city ++ "," ++ country)) = Some (Str.trim country))
  /\ (forall cityName country,
        inferCountryFromCityName cityName = Some country ->
        Str.hasComma country = false /\ Str.trim country = country).
Proof.
  split.
  - intros city country H.
    assert (C : Str.hasComma ("," ++ country) = true) by reflexivity.
    rewrite inferCountry_comma by (rewrite hasComma_app, C; apply orb_true_r).
    rewrite lastSegment_app by exact C.
    simpl; now rewrite (lastSegment_noComma country H).
  - intros cityName country.
    destruct cityName as [name|]; [|discriminate].
    destruct (Str.hasComma name) eqn:H.
    + rewrite (inferCountry_comma name H); intros E; inversion E; subst.
      split; [|apply trim_idempotent].
      unfold Str.trim; now rewrite hasComma_trimEnd, hasComma_trimStart,
        hasComma_lastSegment.
    + now rewrite (inferCountry_noComma name H).
Qed.

Lemma inferCountry_roundtrip_witness :
  inferCountryFromCityName (Some ("Sydney, NSW" ++ "," ++ "  Australia ")) = Some "Australia"
  /\ Str.hasComma "Australia" = false.
Proof.
  destruct inferCountry_roundtrip as (A & B).
  split; [exact (A "Sydney, NSW" "  Australia " eq_refl)|].
  exact (proj1 (B (Some "Sydney, NSW,  Australia ") "Australia" eq_refl)).
Defined.

(** ** Cards *)

Lemma orString_nonempty (x : option string) (d : string) :
  d <> EmptyString -> orString x d <> EmptyString.
Proof. destruct x as [[|c s]|]; simpl; trivial; discriminate. Qed.

(** X21: every card the renderer shows is complete: its title, its
    description and its image source are non-empty, whatever fields the
    item lacks or has empty; the alternative text of the image is the
    title and the badge is the label the renderer was given. *)
Theorem rendered_cards_complete (items : list Place.t) (badgeLabel : option string)
    (st : state) :
  Forall (fun c => title c <> EmptyString /\ body c <> EmptyString
                   /\ img_src c <> EmptyString /\ img_alt c = title c
                   /\ badge c = badgeLabel)
    (results (renderRecommendations items badgeLabel st)).
Proof.
  destruct (rendered_fields _ _ _ _ (rendered_renderRecommendations items badgeLabel st))
    as (R & _).
  rewrite R; apply Forall_map, Forall_forall; intros p _.
  unfold makeCard; cbv zeta; simpl.
  repeat split; apply orString_nonempty; discriminate.
Qed.

(** ** Navigation *)





(** ** Searches and the clock *)

Lemma shown_invariant l b q n c st :
  clockInvariant st ->
  clockInvariant (renderRecommendations l b (setResultsHeader q n c st)).
Proof. auto with clock. Qed.

Lemma startSingleClock_task now n tz st z t :
  clockInvariant st ->
  tz = Some z -> toLocaleTimeString now z = Some t ->
  exists id, intervals (stateOf (startSingleClock now n tz st)) = [(id, UpdateSingle n z)].
Proof.
  intros I -> T. pose proof (startSingleClock_timers now n (Some z) st I) as H.
  cbv beta iota in H.
  rewrite T in H; apply timers_fields in H; destruct H as (_ & H & _); eauto.
Qed.

Lemma startSingleClock_idle now n st :
  clockInvariant st -> intervals (stateOf (startSingleClock now n None st)) = [].
Proof.
  intros I. pose proof (startSingleClock_timers now n None st I) as H.
  apply timers_fields in H; tauto.
Qed.

(** X23: a query that is no keyword and equals a country name starts the
    single clock for the first such country.  When the country has no
    configured zone the time box says so and no task runs; when its zone
    can be formatted the time box shows the country's current time and
    one task redraws it. *)
Theorem exact_country_clock (now : clock) (st : state) (data : Dataset)
    (pre : list Country.t) (c : Country.t) (post : list Country.t) :
  apiData st = Some data ->
  Str.blank (searchInput st) = false ->
  let raw := Str.trim (searchInput st) in
  let query := normalizeKeyword raw in
  query <> "beach" -> query <> "temple" -> query <> "country" ->
  orList (countries data) = (pre ++ c :: post)%list ->
  Tier.countryKey c = query ->
  (forall b, In b pre -> Tier.countryKey b <> query) ->
  let cities := orList (Country.cities c) in
  let shown := renderRecommendations cities (Country.name c)
                 (setResultsHeader (Some raw) (length cities)
                    (Some (display (Country.name c) ++ " (Cities)")) st) in
  let st' := stateOf (handleSearch now st) in
  handleSearch now st
  = startSingleClock now (Country.name c) (getTimeZoneForCountry (Country.name c)) shown
  /\ (getTimeZoneForCountry (Country.name c) = None ->
      timeBox st' = Some ("Current time: (time zone not configured for "
                          ++ display (Country.name c) ++ ")")
      /\ (reachable st -> intervals st' = []))
  /\ (forall z t,
        getTimeZoneForCountry (Country.name c) = Some z ->
        toLocaleTimeString now z = Some t ->
        timeBox st' = Some ("Current time in " ++ display (Country.name c) ++ ": " ++ t)
        /\ (reachable st ->
            exists id, intervals st' = [(id, UpdateSingle (Country.name c) z)])).
Proof.
  intros D B raw query K1 K2 K3 C E N cities shown st'.
  assert (F : find (fun b => Tier.countryKey b =? query) (orList (countries data)) = Some c).
  { rewrite C; apply find_first; [now apply String.eqb_eq|].
    intros b Hb; apply String.eqb_neq; now apply N. }
  assert (H : handleSearch now st
              = startSingleClock now (Country.name c)
                  (getTimeZoneForCountry (Country.name c)) shown).
  { unfold handleSearch; rewrite orString_some, trim_blank, B, D.
    fold raw; fold query; cbv zeta.
    apply String.eqb_neq in K1, K2, K3; rewrite K1, K2, K3.
    unfold Tier.countryKey in F; now rewrite F. }
  split; [exact H|]. unfold st'; rewrite H.
  destruct (startSingleClock_outcome now (Country.name c)
              (getTimeZoneForCountry (Country.name c)) shown) as (_ & O).
  split.
  - intros Z; rewrite Z in *. destruct O as (s & Es & T).
    split; [rewrite Es; exact T|].
    intros R; apply startSingleClock_idle.
    apply shown_invariant, clockInvariant_reachable, R.
  - intros z t Z T. rewrite Z, T in O. destruct O as (s & Es & Ts).
    split; [rewrite Z, Es; exact Ts|].
    intros R. apply (startSingleClock_task now (Country.name c) _ shown z t); trivial.
    apply shown_invariant, clockInvariant_reachable, R.
Qed.

Lemma exact_country_clock_witness :
  let st := run Scenario.atlasLoaded [Input "Portugal?"] in
  let st2 := run Scenario.atlasLoaded [Input "japan"] in
  timeBox (stateOf (handleSearch Sample.noon st))
  = Some "Current time: (time zone not configured for Portugal)"
  /\ intervals (stateOf (handleSearch Sample.noon st)) = []
  /\ timeBox (stateOf (handleSearch Sample.noon st2))
     = Some "Current time in Japan: 12:00:00 PM".
Proof.
  intros st st2.
  destruct (exact_country_clock Sample.noon st Scenario.atlas [Sample.japan]
              Scenario.portugal [Scenario.noCities; Sample.brazil] eq_refl eq_refl)
    as (_ & A & _); try discriminate; try reflexivity.
  { intros b [<-|[]]; discriminate. }
  destruct (exact_country_clock Sample.noon st2 Scenario.atlas []
              Sample.japan [Scenario.portugal; Scenario.noCities; Sample.brazil]
              eq_refl eq_refl)
    as (_ & _ & B); try discriminate; try reflexivity.
  { intros b []. }
  destruct (A eq_refl) as (A1 & A2).
  assert (R : reachable st) by (apply reachable_run, reachable_run, reachable_pageLoad).
  destruct (B (Zone "Asia/Tokyo") "12:00:00 PM" eq_refl eq_refl) as (B1 & _).
  exact (conj A1 (conj (A2 R) B1)).
Defined.

(** X24: the keyword "country" (or "countries") shows all cities and
    starts the multi-clock on the configured zones of the countries'
    distinct trimmed names.  When every zone can be formatted the time box
    holds the heading and one line per such name; when no country has a
    configured zone the time box is hidden. *)
Theorem country_keyword_clock (now : clock) (st : state) (data : Dataset) :
  apiData st = Some data ->
  normalizeKeyword (searchInput st) = "country" ->
  let raw := Str.trim (searchInput st) in
  let allCities := flattenAllCities (orList (countries data)) in
  let shown := renderRecommendations allCities (Some "Countries")
                 (setResultsHeader (Some raw) (length allCities)
                    (Some "Countries (Cities)") st) in
  let tzList := getTimeZonesForCountries (map Country.name (orList (countries data))) in
  let st' := stateOf (handleSearch now st) in
  handleSearch now st = startMultiClock now tzList shown
  /\ NoDup (map fst tzList)
  /\ (tzList = [] -> timeBox st' = None)
  /\ (tzList <> [] -> formattable now tzList ->
      exists lines,
        length lines = length tzList
        /\ timeBox st' = Some ("Current times:" ++ Str.newline
                              ++ Str.join Str.newline lines)).
Proof.
  intros D K raw allCities shown tzList st'.
  rewrite <- normalizeKeyword_trim in K; fold raw in K.
  assert (N : Str.isEmpty raw = false)
    by (apply normalizeKeyword_nonempty; rewrite K; discriminate).
  assert (H : handleSearch now st = startMultiClock now tzList shown).
  { unfold handleSearch; rewrite orString_some; fold raw.
    now rewrite N, D, K. }
  split; [exact H|].
  split; [apply zones_nodup, unique_nodup|].
  unfold st'; rewrite H.
  pose proof (startMultiClock_outcome now tzList shown) as O.
  split.
  - intros E; rewrite E in *. destruct O as (-> & T); exact T.
  - intros NE F. apply clockLines_formattable in F.
    destruct tzList as [|x l]; [now elim NE|].
    destruct (clockLines now (x :: l)) as [lines|]; [|now elim F].
    destruct O as (L & _ & s & -> & T). exists lines; auto.
Qed.

Lemma country_keyword_clock_witness :
  let st := run Scenario.atlasLoaded [Input "Countries"] in
  timeBox (stateOf (handleSearch Sample.noon st))
  = Some ("Current times:" ++ Str.newline
          ++ Str.join Str.newline
               ["Japan: 12:00:00 PM"; "JAPAN: 12:00:00 PM"; "Brazil: 12:00:00 PM"])
  /\ timeBox (stateOf (handleSearch Sample.noon
                         (run (run pageLoad [FetchSettled (Some Sample.sparse)])
                            [Input "country"]))) = None.
Proof.
  intros st.
  destruct (country_keyword_clock Sample.noon st Scenario.atlas eq_refl eq_refl)
    as (E & _ & _ & _).
  destruct (country_keyword_clock Sample.noon
              (run (run pageLoad [FetchSettled (Some Sample.sparse)]) [Input "country"])
              Sample.sparse eq_refl eq_refl) as (_ & _ & A & _).
  split; [rewrite E; reflexivity | exact (A eq_refl)].
Defined.

(** X25: when the city tier fires, the clock follows the first matched
    city only.  If a country can be inferred from its display name the
    single clock is started for that country; if the name has no comma
    (or is blank after the last one) the clock is stopped and the time box
    hidden.  For a first match named "city,country" with no comma in a
    non-blank country part the clock is the one of the trimmed country
    part. *)
Theorem city_tier_clock (now : clock) (st : state) (data : Dataset)
    (first : Place.t) (rest : list Place.t) :
  apiData st = Some data ->
  Str.blank (searchInput st) = false ->
  let raw := Str.trim (searchInput st) in
  let query := normalizeKeyword raw in
  Tier.fires data query Tier.SubstringCity = true ->
  Tier.items (Tier.resultOf data query Tier.SubstringCity) = first :: rest ->
  let shown := renderRecommendations (first :: rest) (Some "City")
                 (setResultsHeader (Some raw) (length (first :: rest))
                    (Some "City Results") st) in
  handleSearch now st
  = (if falsy (inferCountryFromCityName (Place.name first))
     then Returned (setTimeBox None (stopClock shown))
     else startSingleClock now (inferCountryFromCityName (Place.name first))
            (getTimeZoneForCountry (inferCountryFromCityName (Place.name first))) shown)
  /\ (forall name, Place.name first = Some name -> Str.hasComma name = false ->
      handleSearch now st = Returned (setTimeBox None (stopClock shown)))
  /\ (forall city country,
        Place.name first = Some (city ++ "," ++ country) ->
        Str.hasComma country = false -> Str.blank country = false ->
        handleSearch now st
        = startSingleClock now (Some (Str.trim country))
            (getTimeZoneForCountry (Some (Str.trim country))) shown).
Proof.
  intros D B raw query F M shown.
  destruct (fires_city data query F) as (K1 & K2 & K3 & A4 & A5).
  cbn [Tier.resultOf Tier.items] in M.
  assert (H : handleSearch now st
              = (if falsy (inferCountryFromCityName (Place.name first))
                 then Returned (setTimeBox None (stopClock shown))
                 else startSingleClock now (inferCountryFromCityName (Place.name first))
                        (getTimeZoneForCountry
                           (inferCountryFromCityName (Place.name first))) shown)).
  { unfold handleSearch; rewrite orString_some, trim_blank, B, D.
    fold raw; fold query; cbv zeta; rewrite K1, K2, K3.
    cbn [Tier.applies] in A4, A5; unfold Tier.countryKey in A4, A5.
    rewrite (existsb_find_none _ _ A4), (existsb_find_none _ _ A5).
    unfold Tier.cityKey in M; rewrite M.
    now destruct (falsy (inferCountryFromCityName (Place.name first))). }
  split; [exact H|]. split.
  - intros name Nm C. rewrite H, Nm, (inferCountry_noComma name C); reflexivity.
  - intros city country Nm C Bl. rewrite H, Nm.
    assert (Cm : Str.hasComma ("," ++ country) = true) by reflexivity.
    rewrite inferCountry_comma by (rewrite hasComma_app, Cm; apply orb_true_r).
    rewrite lastSegment_app by exact Cm.
    simpl Str.lastSegment; rewrite (lastSegment_noComma country C).
    rewrite falsy_some, trim_blank, Bl; reflexivity.
Qed.

Lemma city_tier_clock_witness :
  let st := run Scenario.atlasLoaded [Input "lisbon"] in
  handleSearch Sample.noon st
  = startSingleClock Sample.noon (Some "Portugal") None
      (renderRecommendations [Scenario.lisbon] (Some "City")
         (setResultsHeader (Some "lisbon") 1 (Some "City Results") st)).
Proof.
  intros st.
  destruct (city_tier_clock Sample.noon st Scenario.atlas Scenario.lisbon []
              eq_refl eq_refl eq_refl eq_refl) as (_ & _ & A).
  exact (A "Lisbon" " Portugal" eq_refl eq_refl eq_refl).
Defined.

(** ** A running clock is on display *)

Lemma clockIntervalId_timers st current table next :
  timers st = (current, table, next) -> clockIntervalId st = current.
Proof. intros H; apply timers_fields in H; tauto. Qed.

Lemma visible_startSingleClock now n tz st :
  clockInvariant st ->
  clockIntervalId (stateOf (startSingleClock now n tz st)) <> None ->
  timeBox (stateOf (startSingleClock now n tz st)) <> None.
Proof.
  intros I; set (st' := stateOf (startSingleClock now n tz st)); intros H.
  pose proof (startSingleClock_timers now n tz st I) as T; fold st' in T.
  destruct (startSingleClock_outcome now n tz st) as (_ & O).
  destruct tz as [z|]; [destruct (toLocaleTimeString now z) as [t|]|].
  - destruct O as (s & E & B). unfold st'; rewrite E; simpl; now rewrite B.
  - apply clockIntervalId_timers in T; contradiction.
  - apply clockIntervalId_timers in T; contradiction.
Qed.

Lemma visible_startMultiClock now l st :
  clockInvariant st ->
  clockIntervalId (stateOf (startMultiClock now l st)) <> None ->
  timeBox (stateOf (startMultiClock now l st)) <> None.
Proof.
  intros I; set (st' := stateOf (startMultiClock now l st)); intros H.
  pose proof (startMultiClock_timers now l st I) as T; fold st' in T.
  pose proof (startMultiClock_outcome now l st) as O.
  destruct l as [|x l]; [apply clockIntervalId_timers in T; contradiction|].
  destruct (clockLines now (x :: l)) as [lines|].
  - destruct O as (_ & _ & s & E & B). unfold st'; rewrite E; simpl; now rewrite B.
  - apply clockIntervalId_timers in T; contradiction.
Qed.

Lemma clearResults_timers st :
  clockInvariant st -> timers (clearResults st) = (None, [], nextHandle st).
Proof.
  intros I; unfold clearResults; cbv zeta; frame.
  rewrite stopClock_stopped; [reflexivity|].
  apply clockInvariant_setResultsHeader; revert I; now apply clockInvariant_timers.
Qed.

Lemma visible_handleSearch now st :
  clockInvariant st ->
  clockIntervalId (stateOf (handleSearch now st)) <> None ->
  timeBox (stateOf (handleSearch now st)) <> None.
Proof.
  intros I; unfold handleSearch; cbv zeta.
  repeat match goal with
         | |- context [if ?b then _ else _] => destruct b
         | |- context [match ?x with _ => _ end] => destruct x
         end;
    first [ apply visible_startSingleClock; auto 10 with clock
          | apply visible_startMultiClock; auto 10 with clock
          | cbn [stateOf]; intros H; exfalso; apply H;
            match goal with
            | |- clockIntervalId ?x = None =>
                eapply (clockIntervalId_timers x None); frame;
                apply stopClock_stopped; auto 10 with clock
            end ].
Qed.

(** X26: in every reachable state a running clock is on display: when
    [clockIntervalId] holds a handle the time box is shown.  (The converse
    fails: the "not configured" text and a text left by a start that
    threw are shown with no clock running.) *)
Theorem running_clock_visible (st : state) :
  reachable st -> clockIntervalId st <> None -> timeBox st <> None.
Proof.
  induction 1 as [st (_ & H & _)|st ev R IH]; [congruence|].
  pose proof (clockInvariant_reachable st R) as I.
  destruct ev as [value|now| |pageName|response|id now]; simpl.
  - exact IH.
  - now apply visible_handleSearch.
  - intros H; elim H.
    now apply (clockIntervalId_timers _ _ _ _ (clearResults_timers st I)).
  - unfold showPage. destruct (pageName =? "home"); [exact IH|].
    intros H; elim H.
    destruct (pageName =? "about");
      now apply (clockIntervalId_timers _ _ _ _ (clearResults_timers st I)).
  - destruct (fetching st); [|exact IH]. destruct response; exact IH.
  - destruct (lookupInterval id (intervals st)) as [[n z|l]|]; [| |exact IH]; simpl.
    + pose proof (timers_updateSingleClock now n z st) as T.
      apply timers_fields in T; destruct T as (T & _); rewrite T; intros H.
      unfold updateSingleClock; destruct (toLocaleTimeString now z); simpl; auto.
      discriminate.
    + pose proof (timers_updateMultiClock now l st) as T.
      apply timers_fields in T; destruct T as (T & _); rewrite T; intros H.
      unfold updateMultiClock; destruct (clockLines now l); simpl; auto.
      discriminate.
Qed.

Lemma running_clock_visible_witness :
  clockIntervalId Sample.japanShown = Some 1
  /\ timeBox Sample.japanShown <> None.
Proof.
  split; [reflexivity|].
  apply running_clock_visible; [|discriminate].
  apply reachable_run, reachable_run, reachable_pageLoad.
Defined.
